(** * SNGP toxic-comments baseline: a shallow embedding of
    [baselines/toxic_comments/sngp.py] and the properties of its
    orchestration code.

    Conventions of the embedding.
    - Python exceptions are values of [exn]; a computation that may raise
      has type [result A].
    - A flag that may be [None] is an [option]; Python truthiness of such a
      flag is [truthy].
    - float32 tensors are lists of real numbers ([R]): the arithmetic of the
      script is read over the reals, rounding is not modelled.  A tensor of
      shape [batch] or [batch, 1] is a [list R] (the unit axis is left
      implicit, so [tf.squeeze] on it is the identity); a tensor of shape
      [num_samples, batch] or [batch, batch] is a list of rows.
    - The [metrics] dict is a [gmap string metric]; a metric object records
      the arguments of its [update_state] calls since the last
      [reset_states].
    - [strategy.run] is followed on one replica; [num_replicas_in_sync]
      still scales the loss.  The [use_bfloat16] casts are the identity on
      reals and are left out, as are logging and timing.
    - Division follows [Rdiv] and [Z.div]: a zero divisor gives 0 where
      TensorFlow gives NaN; Python's integer [//] and [%] raise on it and are
      modelled with their exception. *)

From Stdlib Require Import ZArith Reals Lra Lia List String Ascii Bool.
From stdpp Require Import base option list gmap strings.
Import ListNotations.

Local Open Scope string_scope.
Local Open Scope Z_scope.

(** ** Exceptions and the error monad *)

Inductive exn : Type :=
| ValueError (msg : string)
| KeyError (key : string)
| TypeError
| ZeroDivisionError
| OutOfRangeError
| InvalidArgumentError
| IllegalFlagValueError (msg : string).

Inductive result (A : Type) : Type :=
| Ok (a : A)
| Raise (e : exn).

Arguments Ok {A} a.
Arguments Raise {A} e.

#[global] Instance result_ret : MRet result := fun A a => Ok a.

#[global] Instance result_bind : MBind result := fun A B k m =>
  match m with
  | Ok a => k a
  | Raise e => Raise e
  end.

Definition raises {A : Type} (m : result A) : Prop := exists e, m = Raise e.

(** ** Python helpers *)

(** Truthiness of a string flag: [None] and [''] are falsy. *)
Definition truthy (s : option string) : bool :=
  match s with
  | None => false
  | Some EmptyString => false
  | Some (String _ _) => true
  end.

Definition startswith_sep (s : string) : bool :=
  match s with
  | String c _ => Ascii.eqb c "/"
  | EmptyString => false
  end.

Fixpoint endswith_sep (s : string) : bool :=
  match s with
  | EmptyString => false
  | String c EmptyString => Ascii.eqb c "/"
  | String _ rest => endswith_sep rest
  end.

(** [os.path.join(a, b)] of [posixpath]. *)
Definition path_join (a b : string) : string :=
  if startswith_sep b then b
  else if String.eqb a "" || endswith_sep a then a ++ b
  else a ++ "/" ++ b.

(** [range(n)] for an integer [n]: empty when [n <= 0]. *)
Definition range (n : Z) : list Z := map Z.of_nat (seq 0 (Z.to_nat n)).

(** [range(a, b)]. *)
Definition range2 (a b : Z) : list Z := map (fun i => a + Z.of_nat i) (seq 0 (Z.to_nat (b - a))).

(** [a % b] on integers: raises on a zero divisor, otherwise the remainder
    has the sign of the divisor, as [Z.modulo]. *)
Definition py_mod (a b : Z) : result Z :=
  if b =? 0 then Raise ZeroDivisionError else Ok (a mod b).

(** ** Flags *)

Inductive loss_kind : Type := cross_entropy | mse | mae.

Record Flags : Type := {
  bert_dir : option string;
  bert_ckpt_dir : option string;
  bert_config_dir : option string;
  use_gp_layer : bool;
  gp_mean_field_factor : R;
  per_core_batch_size : Z;
  checkpoint_interval : Z;
  evaluation_interval : Z;
  num_bins : Z;
  fractions : list string;
  output_dir : string;
  train_epochs : Z;
  ece_label_threshold : R;
  num_mc_samples : Z;
  loss_type : loss_kind;
  num_cores : Z;
  prediction_mode : bool;
  eval_checkpoint_dir : option string
}.

(** The [flags_dict] handed to a multi-flag validator holds the values of
    the flags it names. *)
Record flags_dict : Type := {
  fd_prediction_mode : bool;
  fd_eval_checkpoint_dir : option string
}.

Definition _check_checkpoint_dir_for_prediction_mode (fd : flags_dict) : bool :=
  negb (fd_prediction_mode fd) || bool_decide (fd_eval_checkpoint_dir fd <> None).

Definition validator_message : string :=
  "`eval_checkpoint_dir` should be provided in prediction mode".

Definition flags_dict_of (F : Flags) : flags_dict :=
  {| fd_prediction_mode := prediction_mode F;
     fd_eval_checkpoint_dir := eval_checkpoint_dir F |}.

(** [app.run(main)]: the registered validator is run on the parsed flags
    before [main] is called; a validator that returns [False] raises
    [IllegalFlagValueError] with the registered message and [main] is not
    called. *)
Definition app_run {A : Type} (main : Flags -> result A) (F : Flags) : result A :=
  if _check_checkpoint_dir_for_prediction_mode (flags_dict_of F)
  then main F
  else Raise (IllegalFlagValueError validator_message).

(** ** Resolving the BERT directories *)

Definition resolve_bert_ckpt_and_config_dir
  (bert_dir bert_config_dir bert_ckpt_dir : option string)
  : result (option string * option string) :=
  let missing_ckpt_or_config_dir :=
    negb (truthy bert_ckpt_dir && truthy bert_config_dir) in
  if missing_ckpt_or_config_dir then
    if negb (truthy bert_dir) then Raise (ValueError "bert_dir cannot be empty.")
    else
      let d := default "" bert_dir in
      let bert_config_dir :=
        if negb (truthy bert_config_dir)
        then Some (path_join d "bert_config.json") else bert_config_dir in
      let bert_ckpt_dir :=
        if negb (truthy bert_ckpt_dir)
        then Some (path_join d "bert_model.ckpt") else bert_ckpt_dir in
      Ok (bert_config_dir, bert_ckpt_dir)
  else Ok (bert_config_dir, bert_ckpt_dir).

(** ** Batches *)

Definition _MAX_SEQ_LENGTH : Z := 512.

Definition _IDENTITY_LABELS : list string :=
  [ "male"; "female"; "transgender"; "other_gender";
    "heterosexual"; "homosexual_gay_or_lesbian"; "bisexual";
    "other_sexual_orientation"; "christian"; "jewish"; "muslim";
    "hindu"; "buddhist"; "atheist"; "other_religion"; "black";
    "white"; "asian"; "latino"; "other_race_or_ethnicity";
    "physical_disability";
    "intellectual_or_learning_disability";
    "psychiatric_or_mental_illness"; "other_disability" ].

(** [d[k]] on a dict. *)
Definition getitem {V : Type} (d : gmap string V) (k : string) : result V :=
  match d !! k with
  | Some v => Ok v
  | None => Raise (KeyError k)
  end.

(** The loop of [create_feature_and_label] over [_IDENTITY_LABELS]: one
    iteration copies the entry of [additional_label] when [inputs] has it. *)
Definition copy_label {V : Type} (inputs : gmap string V)
  (additional_labels : gmap string V) (additional_label : string) : gmap string V :=
  match inputs !! additional_label with
  | Some v => <[additional_label := v]> additional_labels
  | None => additional_labels
  end.

Definition create_feature_and_label {V : Type} (inputs : gmap string V)
  : result (list V * V * gmap string V) :=
  input_ids ← getitem inputs "input_ids";
  input_mask ← getitem inputs "input_mask";
  segment_ids ← getitem inputs "segment_ids";
  labels ← getitem inputs "labels";
  let additional_labels := foldl (copy_label inputs) ∅ _IDENTITY_LABELS in
  Ok ([input_ids; input_mask; segment_ids], labels, additional_labels).

(** The fields [create_feature_and_label] may look at. *)
Definition consulted_fields : list string :=
  ["input_ids"; "input_mask"; "segment_ids"; "labels"] ++ _IDENTITY_LABELS.

(** A batch field is an integer tensor (token ids, masks) or a float tensor
    (toxicity scores, identity annotations). *)
Inductive tensor : Type :=
| IntTensor (rows : list (list Z))
| FloatTensor (v : list R).

Abbreviation batch := (gmap string tensor).

(** The float operations of the step functions reject integer labels. *)
Definition float_values (t : tensor) : result (list R) :=
  match t with
  | FloatTensor v => Ok v
  | IntTensor _ => Raise TypeError
  end.

(** ** Tensor arithmetic over the reals *)

Open Scope R_scope.

Definition sigmoid (x : R) : R := 1 / (1 + exp (- x)).

(** [tf.nn.sigmoid_cross_entropy_with_logits] for one label [z] and one
    logit [x], in the form TensorFlow documents:
    [max(x, 0) - x * z + log(1 + exp(-abs(x)))]. *)
Definition sigmoid_cross_entropy (z x : R) : R :=
  Rmax x 0 - x * z + ln (1 + exp (- Rabs x)).

Definition reduce_sum (v : list R) : R := fold_right Rplus 0 v.

Definition reduce_mean (v : list R) : R := reduce_sum v / INR (length v).

(** An elementwise operation that demands equal shapes. *)
Definition same_shape2 (f : R -> R -> R) (xs ys : list R) : result (list R) :=
  if Nat.eqb (length xs) (length ys) then Ok (zip_with f xs ys)
  else Raise (ValueError "logits and labels must have the same shape").

(** An elementwise operation with broadcasting of a length-one operand. *)
Definition broadcast2 (f : R -> R -> R) (xs ys : list R) : result (list R) :=
  match xs, ys with
  | [x], _ => Ok (map (f x) ys)
  | _, [y] => Ok (map (fun x => f x y) xs)
  | _, _ =>
      if Nat.eqb (length xs) (length ys) then Ok (zip_with f xs ys)
      else Raise InvalidArgumentError
  end.

Definition sigmoid_cross_entropy_with_logits (labels logits : list R) : result (list R) :=
  same_shape2 sigmoid_cross_entropy labels logits.

(** [tf.keras.losses.mean_squared_error] and [mean_absolute_error] on rank-one
    tensors reduce over the only axis; the scalar is a one-element list. *)
Definition mean_squared_error (y_true y_pred : list R) : result (list R) :=
  d ← broadcast2 (fun p y => (p - y) * (p - y)) y_pred y_true;
  Ok [reduce_mean d].

Definition mean_absolute_error (y_true y_pred : list R) : result (list R) :=
  d ← broadcast2 (fun p y => Rabs (p - y)) y_pred y_true;
  Ok [reduce_mean d].

(** [tf.eye(n)]. *)
Definition eye (n : nat) : list (list R) :=
  map (fun i => map (fun j => if Nat.eqb i j then 1 else 0) (seq 0 n)) (seq 0 n).

(** [tf.linalg.diag_part]. *)
Definition diag_part (m : list (list R)) : list R :=
  imap (fun i row => nth i row 0) m.

(** [tf.stack(rows, axis=0)]: the list must be non-empty and its elements of
    one shape. *)
Definition stack (rows : list (list R)) : result (list (list R)) :=
  match rows with
  | [] => Raise (ValueError "stack of an empty list")
  | r :: rest =>
      if forallb (fun r' => Nat.eqb (length r') (length r)) rest then Ok rows
      else Raise InvalidArgumentError
  end.

(** Reductions along axis 0 of a stacked tensor [num_samples, batch]. *)
Definition reduce_sum_axis0 (rows : list (list R)) : list R :=
  match rows with
  | [] => []
  | r :: rest => foldl (zip_with Rplus) r rest
  end.

Definition reduce_mean_axis0 (rows : list (list R)) : list R :=
  map (fun s => s / INR (length rows)) (reduce_sum_axis0 rows).

Definition reduce_logsumexp_axis0 (rows : list (list R)) : list R :=
  map ln (reduce_sum_axis0 (map (map exp) rows)).

(** [tf.math.argmax] of one row: the first index holding the maximum. *)
Fixpoint argmax_from (best_i : Z) (best : R) (i : Z) (row : list R) : Z :=
  match row with
  | [] => best_i
  | x :: rest =>
      if Rlt_dec best x then argmax_from i x (i + 1)%Z rest
      else argmax_from best_i best (i + 1)%Z rest
  end.

Definition argmax (row : list R) : Z :=
  match row with
  | [] => 0%Z
  | x :: rest => argmax_from 0%Z x 1%Z rest
  end.

(** [tf.cast(labels > threshold, tf.float32)]. *)
Definition greater_cast (labels : list R) (threshold : R) : list R :=
  map (fun y => if Rgt_dec y threshold then 1 else 0) labels.

(** [tf.concat([1. - probs, probs], axis=1)] for [probs] of shape [batch, 1]. *)
Definition class_probs (probs : list R) : list (list R) :=
  map (fun p => [1 - p; p]) probs.

(** Modelled from the spec: [ed.layers.utils.mean_field_logits] of the
    edward2 package, the Mean-Field Calibrator of the design:
    [calibrated_logit_i = logit_i / sqrt(1 + mean_field_factor * var_i)] with
    [var_i] the diagonal of the covariance, and the logits returned as they
    are when [mean_field_factor < 0]. *)
Definition mean_field_logits (logits : list R) (covmat : list (list R))
  (mean_field_factor : R) : result (list R) :=
  if Rlt_dec mean_field_factor 0 then Ok logits
  else
    let variances := diag_part covmat in
    let logits_scale := map (fun v => sqrt (1 + v * mean_field_factor)) variances in
    broadcast2 Rdiv logits logits_scale.

Close Scope R_scope.

(** ** Metric objects *)

Inductive curve : Type := ROC | PR.

(** The metric classes of the script, with their constructor arguments; the
    fraction of [OracleCollaborativeAccuracy] is kept as the flag writes
    it. *)
Inductive metric_kind : Type :=
| Mean
| Accuracy
| AUC (c : curve)
| MeanSquaredError
| ExpectedCalibrationError (bins : Z)
| OracleCollaborativeAccuracy (fraction : string) (bins : Z).

(** The arguments of one [update_state] call. *)
Inductive update : Type :=
| UValues (values : list R)
| ULabelsClasses (y_true : list R) (y_pred : list Z)
| ULabelsScores (y_true : list R) (y_pred : list R)
| ULabelsDist (y_true : list R) (probs : list (list R)).

Record metric : Type := {
  kind : metric_kind;
  history : list update
}.

Definition new_metric (k : metric_kind) : metric := {| kind := k; history := [] |}.

Definition reset_states (m : metric) : metric := {| kind := kind m; history := [] |}.

(** [metrics[name].update_state(...)]. *)
Definition update_state (name : string) (u : update) (metrics : gmap string metric)
  : result (gmap string metric) :=
  m ← getitem metrics name;
  Ok (<[name := {| kind := kind m; history := history m ++ [u] |}]> metrics).

(** [metrics.update({...})]. *)
Definition dict_update {V : Type} (entries : list (string * V)) (d : gmap string V)
  : gmap string V :=
  foldl (fun acc kv => <[kv.1 := kv.2]> acc) d entries.

Definition train_metrics (F : Flags) : list (string * metric) :=
  [ ("train/negative_log_likelihood", new_metric Mean);
    ("train/accuracy", new_metric Accuracy);
    ("train/loss", new_metric Mean);
    ("train/ece", new_metric (ExpectedCalibrationError (num_bins F))) ].

Definition test_metrics (F : Flags) (suffix : string) : list (string * metric) :=
  [ ("test/nll" ++ suffix, new_metric Mean);
    ("test/auroc" ++ suffix, new_metric (AUC ROC));
    ("test/aupr" ++ suffix, new_metric (AUC PR));
    ("test/brier" ++ suffix, new_metric MeanSquaredError);
    ("test/ece" ++ suffix, new_metric (ExpectedCalibrationError (num_bins F)));
    ("test/eval_time" ++ suffix, new_metric Mean);
    ("test/stddev" ++ suffix, new_metric Mean);
    ("test/acc" ++ suffix, new_metric Accuracy) ].

Definition collab_metrics (F : Flags) (suffix : string) : list (string * metric) :=
  map (fun fraction =>
         ("test_collab_acc/collab_acc_" ++ fraction ++ suffix,
          new_metric (OracleCollaborativeAccuracy fraction (num_bins F))))
      (fractions F).

(** The suffix of the metric names of a dataset: none for ['ind']. *)
Definition metric_suffix (dataset_name : string) : string :=
  if String.eqb dataset_name "ind" then "" else "_" ++ dataset_name.

(** The [metrics] dict as [main] builds it. *)
Definition build_metrics (F : Flags) (dataset_names : list string) : gmap string metric :=
  let metrics := dict_update (train_metrics F) ∅ in
  let metrics := dict_update (test_metrics F "") metrics in
  let metrics := dict_update (collab_metrics F "") metrics in
  foldl (fun metrics dataset_name =>
           if String.eqb dataset_name "ind" then metrics
           else
             dict_update (collab_metrics F ("_" ++ dataset_name))
               (dict_update (test_metrics F ("_" ++ dataset_name)) metrics))
        metrics dataset_names.

(** ** The model, the optimizer and the other collaborators *)

Definition weights : Type := list R.

(** Everything a [tf.train.Checkpoint(model=model, optimizer=optimizer)]
    tracks: the encoder, the layers on top of it, the optimizer slots and
    the optimizer's step counter. *)
Record Params : Type := {
  encoder : weights;
  head : weights;
  opt_slots : weights;
  iterations : Z
}.

(** What [model(features, training=...)] returns: bare logits, or the tuple
    of logits and covariance matrix. *)
Inductive model_output : Type :=
| Bare (logits : list R)
| WithCov (logits : list R) (covmat : list (list R)).

Record Env : Type := {
  (** [model(features, training)] under the current variables *)
  model : Params -> list tensor -> bool -> model_output;
  (** [model.losses] *)
  model_losses : Params -> list R;
  (** [tape.gradient(scaled_loss, ...)] followed by
      [optimizer.apply_gradients]: the tape holds the scaled loss as a
      function of the variables *)
  apply_gradients : Params -> (Params -> result R) -> Params;
  (** [strategy.num_replicas_in_sync] *)
  num_replicas_in_sync : Z;
  (** [metric.result()] *)
  metric_result : metric -> R;
  (** [tf.train.latest_checkpoint(dir)] *)
  latest_checkpoint : string -> option string;
  (** the variables stored in a checkpoint file *)
  read_checkpoint : string -> Params;
  (** the variables of a freshly built model and optimizer *)
  fresh_params : Params;
  (** [bert_utils.load_bert_weight_from_ckpt(bert_model, bert_ckpt_dir, ...)] *)
  load_bert_weight_from_ckpt : weights -> option string -> weights
}.

(** ** Dataset iterators *)

(** [next(iterator)]: the next batch and the advanced iterator, or the
    end-of-data signal; an exhausted iterator stays exhausted. *)
Definition next (iterator : list batch) : result (batch * list batch) :=
  match iterator with
  | [] => Raise OutOfRangeError
  | b :: rest => Ok (b, rest)
  end.

(** ** The training step *)

Record train_state : Type := {
  params : Params;
  metrics : gmap string metric
}.

(** [if isinstance(logits, tuple): logits, _ = logits] *)
Definition model_logits (out : model_output) : list R :=
  match out with
  | Bare logits => logits
  | WithCov logits _ => logits
  end.

Definition per_example_loss (lt : loss_kind) (labels loss_logits : list R)
  : result (list R) :=
  match lt with
  | cross_entropy => sigmoid_cross_entropy_with_logits labels loss_logits
  | mse => mean_squared_error labels (map sigmoid loss_logits)
  | mae => mean_absolute_error labels (map sigmoid loss_logits)
  end.

(** The body of the [tf.GradientTape] block up to [loss]: the pair of
    [negative_log_likelihood] and [loss] under the variables [theta]. *)
Definition train_losses (E : Env) (F : Flags) (features : list tensor)
  (labels : tensor) (theta : Params) : result (R * R) :=
  let logits := model_logits (model E theta features true) in
  let loss_logits := logits in
  labels_f ← float_values labels;
  negative_log_likelihood ← per_example_loss (loss_type F) labels_f loss_logits;
  let negative_log_likelihood := reduce_mean negative_log_likelihood in
  let l2_loss := reduce_sum (model_losses E theta) in
  let loss := (negative_log_likelihood + l2_loss)%R in
  Ok (negative_log_likelihood, loss).

(** [scaled_loss = loss / strategy.num_replicas_in_sync] *)
Definition scaled_loss (E : Env) (loss : R) : R :=
  (loss / IZR (num_replicas_in_sync E))%R.

(** What the tape differentiates: the scaled loss as a function of the
    variables. *)
Definition taped_loss (E : Env) (F : Flags) (features : list tensor)
  (labels : tensor) (theta : Params) : result R :=
  l ← train_losses E F features labels theta;
  Ok (scaled_loss E l.2).

(** The per-replica [step_fn] of [train_step]. *)
Definition train_step_fn (E : Env) (F : Flags) (inputs : batch) (st : train_state)
  : result train_state :=
  '(features, labels, _) ← create_feature_and_label inputs;
  let theta := params st in
  '(negative_log_likelihood, loss) ← train_losses E F features labels theta;
  let theta' := apply_gradients E theta (taped_loss E F features labels) in
  let logits := model_logits (model E theta features true) in
  let probs := map sigmoid logits in
  labels_f ← float_values labels;
  let ece_labels := greater_cast labels_f (ece_label_threshold F) in
  let ece_probs := class_probs probs in
  let pred_labels := map argmax ece_probs in
  metrics ← update_state "train/accuracy" (ULabelsClasses labels_f pred_labels) (metrics st);
  metrics ← update_state "train/ece" (ULabelsDist ece_labels ece_probs) metrics;
  metrics ← update_state "train/loss" (UValues [loss]) metrics;
  metrics ← update_state "train/negative_log_likelihood"
              (UValues [negative_log_likelihood]) metrics;
  Ok {| params := theta'; metrics := metrics |}.

(** [train_step(iterator)]: [strategy.run(step_fn, args=(next(iterator),))]. *)
Definition train_step (E : Env) (F : Flags) (iterator : list batch) (st : train_state)
  : result (list batch * train_state) :=
  '(inputs, iterator) ← next iterator;
  st ← train_step_fn E F inputs st;
  Ok (iterator, st).

(** ** The evaluation step *)

Definition test_batch_size (F : Flags) : Z := per_core_batch_size F * num_cores F.

(** The dispatch on the model output: the tuple gives both parts, bare
    logits get [tf.eye(test_batch_size)] as covariance. *)
Definition logits_and_covmat (F : Flags) (out : model_output)
  : list R * list (list R) :=
  match out with
  | WithCov logits covmat => (logits, covmat)
  | Bare logits => (logits, eye (Z.to_nat (test_batch_size F)))
  end.

(** One Monte-Carlo forward pass of [test_step]: calibrated logits and the
    standard deviation. *)
Definition eval_forward (E : Env) (F : Flags) (theta : Params)
  (features : list tensor) : result (list R * list R) :=
  let '(logits, covmat) := logits_and_covmat F (model E theta features false) in
  logits ← mean_field_logits logits covmat (gp_mean_field_factor F);
  let stddev := map sqrt (diag_part covmat) in
  Ok (logits, stddev).

(** [tf.nn.sigmoid_cross_entropy_with_logits] on tensors of shape
    [num_samples, batch]. *)
Definition cross_entropy_rows (labels logits : list (list R))
  : result (list (list R)) :=
  if Nat.eqb (length labels) (length logits)
  then mapM (fun lx => sigmoid_cross_entropy_with_logits lx.1 lx.2) (zip labels logits)
  else Raise (ValueError "logits and labels must have the same shape").

(** The negative log-likelihood of [test_step]: labels are broadcast to
    [num_mc_samples, batch], the cross-entropy is taken per sample, and the
    samples are combined by [-logsumexp(-ce) + log(num_mc_samples)] before the
    batch mean. *)
Definition mc_negative_log_likelihood (samples : Z) (labels : list R)
  (logits_list : list (list R)) : result R :=
  ce ← cross_entropy_rows (replicate (Z.to_nat samples) labels) logits_list;
  let negative_log_likelihood :=
    map (fun l => (- l + ln (IZR samples))%R)
        (reduce_logsumexp_axis0 (map (map Ropp) ce)) in
  Ok (reduce_mean negative_log_likelihood).

Fixpoint update_all (names : list string) (u : update) (metrics : gmap string metric)
  : result (gmap string metric) :=
  match names with
  | [] => Ok metrics
  | name :: rest => metrics ← update_state name u metrics; update_all rest u metrics
  end.

(** The per-replica [step_fn] of [test_step]; the two branches on
    [dataset_name == 'ind'] differ in the metric names only, which
    [metric_suffix] gives. *)
Definition test_step_fn (E : Env) (F : Flags) (theta : Params)
  (dataset_name : string) (inputs : batch) (metrics : gmap string metric)
  : result (gmap string metric) :=
  '(features, labels, _) ← create_feature_and_label inputs;
  samples ← mapM (fun _ => eval_forward E F theta features) (range (num_mc_samples F));
  logits_list ← stack (samples.*1);
  stddev_list ← stack (samples.*2);
  let stddev := reduce_mean_axis0 stddev_list in
  let probs_list := map (map sigmoid) logits_list in
  let probs := reduce_mean_axis0 probs_list in
  labels_f ← float_values labels;
  let ece_labels := greater_cast labels_f (ece_label_threshold F) in
  let ece_probs := class_probs probs in
  let pred_labels := map argmax ece_probs in
  let auc_probs := probs in
  negative_log_likelihood ←
    mc_negative_log_likelihood (num_mc_samples F) labels_f logits_list;
  let sfx := metric_suffix dataset_name in
  metrics ← update_state ("test/nll" ++ sfx) (UValues [negative_log_likelihood]) metrics;
  metrics ← update_state ("test/auroc" ++ sfx) (ULabelsScores labels_f auc_probs) metrics;
  metrics ← update_state ("test/aupr" ++ sfx) (ULabelsScores labels_f auc_probs) metrics;
  metrics ← update_state ("test/brier" ++ sfx) (ULabelsScores labels_f auc_probs) metrics;
  metrics ← update_state ("test/ece" ++ sfx) (ULabelsDist ece_labels ece_probs) metrics;
  metrics ← update_state ("test/stddev" ++ sfx) (UValues stddev) metrics;
  metrics ← update_state ("test/acc" ++ sfx) (ULabelsClasses ece_labels pred_labels) metrics;
  update_all
    (map (fun fraction => "test_collab_acc/collab_acc_" ++ fraction ++ sfx) (fractions F))
    (ULabelsDist ece_labels ece_probs) metrics.

(** [test_step(iterator, dataset_name)]. *)
Definition test_step (E : Env) (F : Flags) (theta : Params) (dataset_name : string)
  (iterator : list batch) (metrics : gmap string metric)
  : result (list batch * gmap string metric) :=
  '(inputs, iterator) ← next iterator;
  metrics ← test_step_fn E F theta dataset_name inputs metrics;
  Ok (iterator, metrics).

(** ** The prediction step *)

(** [final_eval_step(iterator)] on one replica: its [step_fn], then the
    branch for [num_replicas_in_sync <= 1], which copies the identity columns
    of the step's additional labels. *)
Definition final_eval_step (E : Env) (F : Flags) (theta : Params)
  (iterator : list batch)
  : result (list batch * (tensor * list R * tensor * gmap string tensor)) :=
  '(inputs, iterator) ← next iterator;
  '(bert_features, labels, additional_labels) ← create_feature_and_label inputs;
  let '(logits, covmat) := logits_and_covmat F (model E theta bert_features false) in
  logits ← mean_field_logits logits covmat (gp_mean_field_factor F);
  features ← getitem inputs "input_ids";
  let additional_labels_dict := foldl (copy_label additional_labels) ∅ _IDENTITY_LABELS in
  Ok (iterator, (features, logits, labels, additional_labels_dict)).

(** ** Loops *)

(** A [for] loop whose body may raise: the first exception ends the loop and
    propagates. *)
Fixpoint for_each {A S : Type} (xs : list A) (body : A -> S -> result S) (s : S)
  : result S :=
  match xs with
  | [] => Ok s
  | x :: rest => s' ← body x s; for_each rest body s'
  end.

(** [a // b] on Python integers. *)
Definition py_floordiv (a b : Z) : result Z :=
  if b =? 0 then Raise ZeroDivisionError else Ok (a / b).

(** ** Prediction mode *)

Record predictions : Type := {
  texts_all : list tensor;
  logits_all : list (list R);
  labels_all : list tensor;
  additional_labels_all_dict : gmap string (list tensor)
}.

(** ['identity' in dataset_name] *)
Definition has_identity (dataset_name : string) : bool :=
  match String.index 0 "identity" dataset_name with
  | Some _ => true
  | None => false
  end.

Definition empty_predictions (dataset_name : string) : predictions :=
  {| texts_all := [];
     logits_all := [];
     labels_all := [];
     additional_labels_all_dict :=
       if has_identity dataset_name
       then foldl (fun d identity_label_name => <[identity_label_name := []]> d)
              ∅ _IDENTITY_LABELS
       else ∅ |}.

Definition append_identity_label (step_dict : gmap string tensor)
  (identity_label_name : string) (all_dict : gmap string (list tensor))
  : result (gmap string (list tensor)) :=
  collected ← getitem all_dict identity_label_name;
  v ← getitem step_dict identity_label_name;
  Ok (<[identity_label_name := (collected ++ [v])%list]> all_dict).

(** One iteration of the prediction loop.  [OutOfRangeError] from the step
    is caught and the loop goes on to its next iteration ([continue]); any
    other exception propagates. *)
Definition predict_iteration (E : Env) (F : Flags) (theta : Params)
  (dataset_name : string) (step : Z) (s : list batch * predictions)
  : result (list batch * predictions) :=
  let '(test_iterator, p) := s in
  match final_eval_step E F theta test_iterator with
  | Raise OutOfRangeError => Ok (test_iterator, p)
  | Raise e => Raise e
  | Ok (test_iterator, (text_step, logits_step, labels_step, additional_labels_dict_step)) =>
      d ← (if has_identity dataset_name
           then for_each _IDENTITY_LABELS
                  (append_identity_label additional_labels_dict_step)
                  (additional_labels_all_dict p)
           else Ok (additional_labels_all_dict p));
      Ok (test_iterator,
          {| texts_all := (texts_all p ++ [text_step])%list;
             logits_all := (logits_all p ++ [logits_step])%list;
             labels_all := (labels_all p ++ [labels_step])%list;
             additional_labels_all_dict := d |})
  end.

Definition predict_loop (E : Env) (F : Flags) (theta : Params)
  (dataset_name : string) (steps : Z) (test_dataset : list batch)
  : result (list batch * predictions) :=
  for_each (range steps) (predict_iteration E F theta dataset_name)
    (test_dataset, empty_predictions dataset_name).

Definition append_tensor (b a : tensor) : result tensor :=
  match a, b with
  | IntTensor x, IntTensor y => Ok (IntTensor (x ++ y))
  | FloatTensor x, FloatTensor y => Ok (FloatTensor (x ++ y))
  | _, _ => Raise TypeError
  end.

(** [tf.concat(values, axis=0)]: an empty list of values is rejected. *)
Definition concat_tensors (values : list tensor) : result tensor :=
  match values with
  | [] => Raise (ValueError "concat of an empty list")
  | t :: rest => for_each rest append_tensor t
  end.

Definition concat_floats (values : list (list R)) : result (list R) :=
  match values with
  | [] => Raise (ValueError "concat of an empty list")
  | _ => Ok (concat values)
  end.

(** The arrays handed to [save_prediction]. *)
Inductive npy : Type :=
| NpyTensor (t : tensor)
| NpyFloats (v : list R)
| NpyStack (ts : list tensor).

(** [save_prediction(data, path)] writes [data] to [path + '.npy']; the
    written file is returned. *)
Definition save_prediction (data : npy) (path : string) : string * npy :=
  (path ++ ".npy", data).

Definition save_predictions (F : Flags) (dataset_name : string) (p : predictions)
  : result (list (string * npy)) :=
  texts ← concat_tensors (texts_all p);
  logits ← concat_floats (logits_all p);
  labels ← concat_tensors (labels_all p);
  additional ←
    (if Nat.eqb (size (additional_labels_all_dict p)) 0 then Ok []
     else mapM (fun identity_label_name =>
                  collected ← getitem (additional_labels_all_dict p) identity_label_name;
                  concat_tensors collected)
               _IDENTITY_LABELS);
  Ok ([ save_prediction (NpyTensor texts)
          (path_join (output_dir F) ("texts_" ++ dataset_name));
        save_prediction (NpyTensor labels)
          (path_join (output_dir F) ("labels_" ++ dataset_name));
        save_prediction (NpyFloats logits)
          (path_join (output_dir F) ("logits_" ++ dataset_name)) ]
      ++ (if has_identity dataset_name
          then [ save_prediction (NpyStack additional)
                   (path_join (output_dir F) ("additional_labels_" ++ dataset_name)) ]
          else []))%list.

(** The prediction pass over one dataset, up to the files it writes. *)
Definition predict_dataset (E : Env) (F : Flags) (theta : Params)
  (dataset_name : string) (steps : Z) (test_dataset : list batch)
  : result (list (string * npy)) :=
  '(_, p) ← predict_loop E F theta dataset_name steps test_dataset;
  save_predictions F dataset_name p.

(** ** Training mode *)

Record run_state : Type := {
  rs_train : train_state;
  rs_train_iterator : list batch;
  rs_summaries : list (string * R * Z);
  rs_checkpoints : list (string * Params)
}.

(** The training steps of one epoch. *)
Definition train_epoch (E : Env) (F : Flags) (steps_per_epoch : Z)
  (s : list batch * train_state) : result (list batch * train_state) :=
  for_each (range steps_per_epoch) (fun _ s => train_step E F s.1 s.2) s.

(** The evaluation pass over one dataset in training mode: a fresh iterator
    and [steps] calls of [test_step]. *)
Definition eval_dataset (E : Env) (F : Flags) (theta : Params)
  (dataset_name : string) (steps : Z) (test_dataset : list batch)
  (metrics : gmap string metric) : result (gmap string metric) :=
  s ← for_each (range steps)
        (fun _ s => test_step E F theta dataset_name s.1 s.2)
        (test_dataset, metrics);
  Ok s.2.

(** [tf.summary.scalar(name, result, step=epoch + 1)] for every metric. *)
Definition write_summaries (E : Env) (metrics : gmap string metric) (epoch : Z)
  : list (string * R * Z) :=
  map (fun nm => (nm.1, metric_result E nm.2, epoch + 1)) (map_to_list metrics).

(** A test dataset with its name and [steps_per_eval]. *)
Record test_set : Type := {
  ts_name : string;
  ts_batches : list batch;
  ts_steps : Z
}.

Definition evaluate_and_summarize (E : Env) (F : Flags) (test_sets : list test_set)
  (epoch : Z) (theta : Params) (metrics : gmap string metric)
  (summaries : list (string * R * Z))
  : result (gmap string metric * list (string * R * Z)) :=
  metrics ← for_each test_sets
              (fun ds m => eval_dataset E F theta (ts_name ds) (ts_steps ds) (ts_batches ds) m)
              metrics;
  Ok (metrics, (summaries ++ write_summaries E metrics epoch)%list).

(** The body of the epoch loop. *)
Definition epoch_body (E : Env) (F : Flags) (test_sets : list test_set)
  (steps_per_epoch : Z) (epoch : Z) (rs : run_state) : result run_state :=
  '(train_iterator, st) ← train_epoch E F steps_per_epoch (rs_train_iterator rs, rs_train rs);
  r ← py_mod epoch (evaluation_interval F);
  '(metrics, summaries) ←
    (if r =? 0
     then evaluate_and_summarize E F test_sets epoch (params st) (metrics st) (rs_summaries rs)
     else Ok (metrics st, rs_summaries rs));
  let metrics := reset_states <$> metrics in
  let checkpoints :=
    if (0 <? checkpoint_interval F) && ((epoch + 1) mod checkpoint_interval F =? 0)
    then (rs_checkpoints rs ++ [(path_join (output_dir F) "checkpoint", params st)])%list
    else rs_checkpoints rs in
  Ok {| rs_train := {| params := params st; metrics := metrics |};
        rs_train_iterator := train_iterator;
        rs_summaries := summaries;
        rs_checkpoints := checkpoints |}.

Definition train_loop (E : Env) (F : Flags) (test_sets : list test_set)
  (steps_per_epoch initial_epoch : Z) (rs : run_state) : result run_state :=
  for_each (range2 initial_epoch (train_epochs F)) (epoch_body E F test_sets steps_per_epoch) rs.

(** ** Start-up: restoring a checkpoint or loading the pretrained encoder *)

Definition find_latest_checkpoint (E : Env) (F : Flags) : result (option string) :=
  if prediction_mode F then
    match eval_checkpoint_dir F with
    | Some d => Ok (latest_checkpoint E d)
    | None => Raise TypeError
    end
  else Ok (latest_checkpoint E (output_dir F)).

(** [checkpoint.restore(path)]: every tracked variable takes the stored
    value. *)
Definition restore (E : Env) (path : string) (theta : Params) : Params :=
  read_checkpoint E path.

(** The checkpoint block of [main].  [optimizer.iterations.numpy() //
    steps_per_epoch] is numpy's floor division, which like [Z.div] yields 0 on
    a zero divisor. *)
Definition restore_or_load (E : Env) (F : Flags) (bert_ckpt_dir : option string)
  (steps_per_epoch : Z) (theta : Params) : result (Params * Z) :=
  latest_checkpoint ← find_latest_checkpoint E F;
  let initial_epoch := 0 in
  if truthy latest_checkpoint then
    let theta := restore E (default "" latest_checkpoint) theta in
    let initial_epoch := iterations theta / steps_per_epoch in
    Ok (theta, initial_epoch)
  else
    let bert_encoder := load_bert_weight_from_ckpt E (encoder theta) bert_ckpt_dir in
    Ok ({| encoder := bert_encoder;
           head := head theta;
           opt_slots := opt_slots theta;
           iterations := iterations theta |}, initial_epoch).

(** ** [main] *)

Record dataset : Type := {
  batches : list batch;
  num_examples : Z
}.

Record Datasets : Type := {
  train_dataset : dataset;
  ind_dataset : dataset;
  ood_dataset : dataset;
  ood_identity_dataset : dataset
}.

Definition dataset_builders (D : Datasets) : list (string * dataset) :=
  [ ("ind", ind_dataset D); ("ood", ood_dataset D);
    ("ood_identity", ood_identity_dataset D) ].

Inductive outcome : Type :=
| Predicted (files : list (string * npy))
| Trained (rs : run_state) (saved_model : string * Params).

Definition main (E : Env) (D : Datasets) (F : Flags) : result outcome :=
  let batch_size := per_core_batch_size F * num_cores F in
  let test_batch_size := batch_size in
  steps_per_epoch ← py_floordiv (num_examples (train_dataset D)) batch_size;
  test_sets ← mapM (fun nd =>
                      steps ← py_floordiv (num_examples nd.2) test_batch_size;
                      Ok {| ts_name := nd.1; ts_batches := batches nd.2; ts_steps := steps |})
                   (dataset_builders D);
  '(_, bert_ckpt) ← resolve_bert_ckpt_and_config_dir
                       (bert_dir F) (bert_config_dir F) (bert_ckpt_dir F);
  '(theta, initial_epoch) ← restore_or_load E F bert_ckpt steps_per_epoch (fresh_params E);
  let metrics := build_metrics F (map ts_name test_sets) in
  if prediction_mode F then
    files ← mapM (fun ds => predict_dataset E F theta (ts_name ds) (ts_steps ds) (ts_batches ds))
                 test_sets;
    Ok (Predicted (concat files))
  else
    rs ← train_loop E F test_sets steps_per_epoch initial_epoch
           {| rs_train := {| params := theta; metrics := metrics |};
              rs_train_iterator := batches (train_dataset D);
              rs_summaries := [];
              rs_checkpoints := [] |};
    Ok (Trained rs (path_join (output_dir F) "model", params (rs_train rs))).

(** ** The ensembled likelihood, example by example *)

(** The design's reading of the Monte-Carlo negative log-likelihood for the
    example at position [i]: minus the log of the sum over samples of
    [exp(-crossentropy)] plus [log(num_mc_samples)]. *)
Definition example_nll (samples : Z) (labels : list R)
  (logits_list : list (list R)) (i : nat) : R :=
  (- ln (reduce_sum
           (map (fun logits =>
                   exp (- sigmoid_cross_entropy (nth i labels 0) (nth i logits 0)))
                logits_list))
   + ln (IZR samples))%R.

(** ... averaged over the batch. *)
Definition batch_nll (samples : Z) (labels : list R) (logits_list : list (list R)) : R :=
  reduce_mean (map (example_nll samples labels logits_list) (seq 0 (length labels))).

(** ** Sample configurations *)

(** The flag defaults of the script, for one core and a per-core batch of
    one example, with the mean-field factor, the evaluation interval and the
    prediction switch left open. *)
Definition sample_flags (mean_field_factor : R) (interval : Z) (prediction : bool)
  (eval_dir : option string) : Flags :=
  {| bert_dir := Some "/bert";
     bert_ckpt_dir := None;
     bert_config_dir := None;
     use_gp_layer := true;
     gp_mean_field_factor := mean_field_factor;
     per_core_batch_size := 1;
     checkpoint_interval := 3;
     evaluation_interval := interval;
     num_bins := 15;
     fractions := ["0.0"; "0.01"; "0.05"; "0.1"; "0.15"; "0.2"];
     output_dir := "/tmp/toxic_comments";
     train_epochs := 3;
     ece_label_threshold := (7 / 10)%R;
     num_mc_samples := 1;
     loss_type := cross_entropy;
     num_cores := 1;
     prediction_mode := prediction;
     eval_checkpoint_dir := eval_dir |}.

(** The default mean-field factor [1e-4]. *)
Definition default_mean_field_factor : R := (1 / 10000)%R.

Definition sample_params (w : R) (steps : Z) : Params :=
  {| encoder := []; head := [w]; opt_slots := []; iterations := steps |}.

(** A baseline (non-GP) model that answers logit [2] for its single example
    and whose regularization loss is its head weight; checkpoints exist only
    under [ckpt_dir], holding the state after 7 optimizer steps. *)
Definition sample_env (replicas : Z) (ckpt_dir : string) : Env :=
  {| model := fun _ _ _ => Bare [2%R];
     model_losses := fun theta => head theta;
     apply_gradients := fun theta _ =>
       {| encoder := encoder theta; head := head theta;
          opt_slots := opt_slots theta; iterations := iterations theta + 1 |};
     num_replicas_in_sync := replicas;
     metric_result := fun m => INR (length (history m));
     latest_checkpoint := fun d =>
       if String.eqb d ckpt_dir then Some (path_join d "checkpoint-7") else None;
     read_checkpoint := fun _ => sample_params 5 7;
     fresh_params := sample_params 0 0;
     load_bert_weight_from_ckpt := fun _ _ => [1%R] |}.

Definition sample_batch (label : R) : batch :=
  <["input_ids" := IntTensor [[101; 2023; 102]]]>
  (<["input_mask" := IntTensor [[1; 1; 1]]]>
  (<["segment_ids" := IntTensor [[0; 0; 0]]]>
  (<["labels" := FloatTensor [label]]>
  (<["male" := FloatTensor [0%R]]> ∅)))).

(** A batch of the identity-annotated dataset: every identity column is
    present. *)
Definition sample_identity_batch (label : R) : batch :=
  foldl (fun b identity_label_name => <[identity_label_name := FloatTensor [0%R]]> b)
        (sample_batch label) _IDENTITY_LABELS.

(** Three test datasets of one batch each; the in-domain one announces
    [announced] test examples. *)
Definition sample_datasets (announced : Z) : Datasets :=
  {| train_dataset := {| batches := [sample_batch 1]; num_examples := 1 |};
     ind_dataset := {| batches := [sample_batch 1]; num_examples := announced |};
     ood_dataset := {| batches := [sample_batch (8 / 10)]; num_examples := 1 |};
     ood_identity_dataset :=
       {| batches := [sample_identity_batch (8 / 10)]; num_examples := 1 |} |}.

Definition sample_metrics (F : Flags) : gmap string metric :=
  build_metrics F ["ind"; "ood"; "ood_identity"].

(** ** Names of the metric objects a step updates *)

(** The metrics [train_step] calls [update_state] on. *)
Definition train_step_names : list string :=
  ["train/accuracy"; "train/ece"; "train/loss"; "train/negative_log_likelihood"].

(** The metrics [test_step] calls [update_state] on for the dataset with
    suffix [sfx]. *)
Definition test_step_names (F : Flags) (sfx : string) : list string :=
  app ["test/nll" ++ sfx; "test/auroc" ++ sfx; "test/aupr" ++ sfx;
       "test/brier" ++ sfx; "test/ece" ++ sfx; "test/stddev" ++ sfx;
       "test/acc" ++ sfx]
      (map (fun fraction => "test_collab_acc/collab_acc_" ++ fraction ++ sfx)
           (fractions F)).

(** ** Alignment of a prediction pass *)


(** * Properties *)

(** ** Generic facts about the error monad and loops *)

Lemma bind_ok {A B : Type} (m : result A) (k : A -> result B) (b : B) :
  m ≫= k = Ok b -> exists a, m = Ok a /\ k a = Ok b.
Proof. destruct m as [a|e]; simpl; [eauto | discriminate]. Qed.

Lemma for_each_app {A S : Type} (xs ys : list A) (body : A -> S -> result S) (s : S) :
  for_each (xs ++ ys) body s = for_each xs body s ≫= for_each ys body.
Proof.
  revert s. induction xs as [|x xs IH]; intros s; simpl; [reflexivity|].
  destruct (body x s) as [s'|e]; simpl; [apply IH | reflexivity].
Qed.

Lemma for_each_fixed {A S : Type} (xs : list A) (body : A -> S -> result S) (s : S) :
  (forall x, body x s = Ok s) -> for_each xs body s = Ok s.
Proof.
  intros Hfix. induction xs as [|x xs IH]; simpl; [reflexivity|].
  rewrite Hfix. exact IH.
Qed.

Lemma for_each_invariant {A S : Type} (P : S -> Prop) (xs : list A)
  (body : A -> S -> result S) :
  (forall x s s', P s -> body x s = Ok s' -> P s') ->
  forall s s', P s -> for_each xs body s = Ok s' -> P s'.
Proof.
  intros Hstep. induction xs as [|x xs IH]; simpl; intros s s' Hs Hrun.
  - congruence.
  - apply bind_ok in Hrun as (s1 & H1 & H2). eauto.
Qed.

Lemma range_pos (n : Z) : 0 < n -> exists rest, range n = 0 :: rest.
Proof.
  intros Hn. unfold range.
  destruct (Z.to_nat n) as [|k] eqn:Hk; [lia|].
  simpl. eauto.
Qed.

(** ** Flag validation *)

Lemma check_checkpoint_dir_false (fd : flags_dict) :
  _check_checkpoint_dir_for_prediction_mode fd = false <->
  fd_prediction_mode fd = true /\ fd_eval_checkpoint_dir fd = None.
Proof.
  unfold _check_checkpoint_dir_for_prediction_mode.
  destruct fd as [pm [d|]]; destruct pm; simpl; split; intros H;
    try discriminate; try reflexivity; try (destruct H; discriminate); auto.
Qed.

(** C6.  Prediction mode without an evaluation checkpoint directory is
    rejected by the validator, so [app.run] raises the flag error and never
    calls [main]; every configuration with prediction mode off, or with
    prediction mode on and a non-empty checkpoint directory, passes, and
    [main] is run on it. *)
Theorem prediction_mode_needs_checkpoint_dir (F : Flags) :
  (prediction_mode F = true /\ eval_checkpoint_dir F = None ->
     _check_checkpoint_dir_for_prediction_mode (flags_dict_of F) = false /\
     forall (A : Type) (main : Flags -> result A),
       app_run main F = Raise (IllegalFlagValueError validator_message)) /\
  (prediction_mode F = false \/
   (prediction_mode F = true /\
    exists d, eval_checkpoint_dir F = Some d /\ d <> "") ->
     _check_checkpoint_dir_for_prediction_mode (flags_dict_of F) = true /\
     forall (A : Type) (main : Flags -> result A), app_run main F = main F).
Proof.
  split.
  - intros [Hp Hd].
    assert (Hv : _check_checkpoint_dir_for_prediction_mode (flags_dict_of F) = false)
      by (apply check_checkpoint_dir_false; simpl; auto).
    split; [exact Hv|]. intros A main. unfold app_run. rewrite Hv. reflexivity.
  - intros Hcase.
    assert (Hv : _check_checkpoint_dir_for_prediction_mode (flags_dict_of F) = true).
    { destruct (_check_checkpoint_dir_for_prediction_mode (flags_dict_of F)) eqn:Hv;
        [reflexivity|].
      apply check_checkpoint_dir_false in Hv as [Hp Hd]. simpl in Hp, Hd.
      destruct Hcase as [Hoff | (_ & d & Hsome & _)]; congruence. }
    split; [exact Hv|]. intros A main. unfold app_run. rewrite Hv. reflexivity.
Qed.

Lemma prediction_mode_needs_checkpoint_dir_witness :
  (forall main : Flags -> result outcome,
     app_run main (sample_flags 0 1 true None)
     = Raise (IllegalFlagValueError validator_message)) /\
  (forall main : Flags -> result outcome,
     app_run main (sample_flags 0 1 true (Some "/run"))
     = main (sample_flags 0 1 true (Some "/run"))) /\
  (forall main : Flags -> result outcome,
     app_run main (sample_flags 0 1 false None) = main (sample_flags 0 1 false None)).
Proof.
  split; [|split]; intros main.
  - apply (prediction_mode_needs_checkpoint_dir (sample_flags 0 1 true None)).
    split; reflexivity.
  - apply (prediction_mode_needs_checkpoint_dir (sample_flags 0 1 true (Some "/run"))).
    right. split; [reflexivity|]. exists "/run". split; [reflexivity | discriminate].
  - apply (prediction_mode_needs_checkpoint_dir (sample_flags 0 1 false None)).
    left. reflexivity.
Defined.

(** ** Resolving the BERT directories *)

Lemma truthy_some (s : option string) :
  truthy s = true -> exists d, s = Some d /\ d <> "".
Proof.
  destruct s as [[|c d]|]; simpl; intros H; try discriminate.
  eexists; split; [reflexivity | discriminate].
Qed.

Lemma path_join_relative (d : string) (c : ascii) (name : string) :
  d <> "" -> endswith_sep d = false -> Ascii.eqb c "/" = false ->
  path_join d (String c name) = d ++ "/" ++ String c name.
Proof.
  intros Hd Hsep Hc. unfold path_join. simpl. rewrite Hc, Hsep.
  destruct d; [congruence | reflexivity].
Qed.

(** C8.  [resolve_bert_ckpt_and_config_dir] raises exactly when one of the
    two explicit directories is empty and [bert_dir] is empty too, and what
    it raises is the [ValueError]; two non-empty explicit directories come
    back unchanged whatever [bert_dir] is; otherwise each empty one becomes
    [bert_dir] joined with its default file name. *)
Theorem resolve_bert_dirs_spec (bert_dir bert_config_dir bert_ckpt_dir : option string) :
  (raises (resolve_bert_ckpt_and_config_dir bert_dir bert_config_dir bert_ckpt_dir) <->
   (truthy bert_ckpt_dir = false \/ truthy bert_config_dir = false) /\
   truthy bert_dir = false) /\
  (forall e,
     resolve_bert_ckpt_and_config_dir bert_dir bert_config_dir bert_ckpt_dir = Raise e ->
     e = ValueError "bert_dir cannot be empty.") /\
  (truthy bert_ckpt_dir = true -> truthy bert_config_dir = true ->
   forall any_bert_dir,
     resolve_bert_ckpt_and_config_dir any_bert_dir bert_config_dir bert_ckpt_dir
     = Ok (bert_config_dir, bert_ckpt_dir)) /\
  (forall d,
     bert_dir = Some d -> d <> "" ->
     truthy bert_ckpt_dir = false \/ truthy bert_config_dir = false ->
     resolve_bert_ckpt_and_config_dir bert_dir bert_config_dir bert_ckpt_dir
     = Ok (if truthy bert_config_dir then bert_config_dir
           else Some (path_join d "bert_config.json"),
           if truthy bert_ckpt_dir then bert_ckpt_dir
           else Some (path_join d "bert_model.ckpt"))).
Proof.
  unfold resolve_bert_ckpt_and_config_dir, raises.
  split; [split | split; [| split]].
  - intros [e He].
    destruct (truthy bert_ckpt_dir), (truthy bert_config_dir), (truthy bert_dir);
      simpl in He; try discriminate; auto.
  - intros [Hmiss Hdir]. rewrite Hdir.
    destruct Hmiss as [H|H]; rewrite H; simpl;
      [| rewrite andb_false_r]; simpl; eauto.
  - intros e He.
    destruct (truthy bert_ckpt_dir), (truthy bert_config_dir), (truthy bert_dir);
      simpl in He; congruence.
  - intros Hck Hcfg any_bert_dir. rewrite Hck, Hcfg. reflexivity.
  - intros d -> Hd Hmiss.
    assert (Hdir : truthy (Some d) = true) by (destruct d; [congruence | reflexivity]).
    rewrite Hdir. simpl.
    destruct Hmiss as [H|H]; rewrite H; simpl.
    + destruct (truthy bert_config_dir); reflexivity.
    + rewrite andb_false_r. simpl. destruct (truthy bert_ckpt_dir); reflexivity.
Qed.

Lemma resolve_bert_dirs_spec_witness :
  resolve_bert_ckpt_and_config_dir (Some "/bert") None (Some "/my/model.ckpt")
  = Ok (Some "/bert/bert_config.json", Some "/my/model.ckpt") /\
  resolve_bert_ckpt_and_config_dir None (Some "/my/config.json") (Some "/my/model.ckpt")
  = Ok (Some "/my/config.json", Some "/my/model.ckpt").
Proof.
  split.
  - destruct (resolve_bert_dirs_spec (Some "/bert") None (Some "/my/model.ckpt"))
      as (_ & _ & _ & Hdefault).
    apply (Hdefault "/bert"); [reflexivity | discriminate | right; reflexivity].
  - destruct (resolve_bert_dirs_spec None (Some "/my/config.json") (Some "/my/model.ckpt"))
      as (_ & _ & Hboth & _).
    apply Hboth; reflexivity.
Defined.

(** ** Features and labels of a batch *)

Lemma copy_labels_lookup {V : Type} (inputs : gmap string V) (names : list string) :
  forall (acc : gmap string V) (k : string),
    foldl (copy_label inputs) acc names !! k
    = if decide (k ∈ names)
      then match inputs !! k with Some v => Some v | None => acc !! k end
      else acc !! k.
Proof.
  induction names as [|n names IH]; intros acc k; simpl.
  - destruct (decide (k ∈ [])) as [Hin|_]; [|reflexivity].
    apply elem_of_nil in Hin. contradiction.
  - rewrite IH.
    assert (Hacc : copy_label inputs acc n !! k
                   = if decide (k = n)
                     then match inputs !! k with Some v => Some v | None => acc !! k end
                     else acc !! k).
    { unfold copy_label. destruct (decide (k = n)) as [->|Hne].
      - destruct (inputs !! n) as [v|]; [apply lookup_insert_eq | reflexivity].
      - destruct (inputs !! n) as [v|]; [|reflexivity].
        apply lookup_insert_ne. congruence. }
    destruct (decide (k ∈ names)) as [Hin|Hnin].
    + destruct (decide (k ∈ n :: names)) as [_|Hcon]; [| exfalso; apply Hcon; by right].
      destruct (inputs !! k) as [v|] eqn:Hk; [reflexivity|].
      rewrite Hacc. destruct (decide (k = n)); reflexivity.
    + rewrite Hacc. destruct (decide (k = n)) as [->|Hne].
      * destruct (decide (n ∈ n :: names)) as [_|Hcon]; [reflexivity|].
        exfalso. apply Hcon. by left.
      * destruct (decide (k ∈ n :: names)) as [Hcon|_]; [|reflexivity].
        apply elem_of_cons in Hcon as [?|?]; contradiction.
Qed.

Lemma additional_labels_lookup {V : Type} (inputs : gmap string V) (k : string) :
  foldl (copy_label inputs) ∅ _IDENTITY_LABELS !! k
  = if decide (k ∈ _IDENTITY_LABELS) then inputs !! k else None.
Proof.
  rewrite copy_labels_lookup. rewrite lookup_empty.
  destruct (decide (k ∈ _IDENTITY_LABELS)); [|reflexivity].
  destruct (inputs !! k); reflexivity.
Qed.

Lemma create_feature_and_label_missing {V : Type} (inputs : gmap string V) (k : string) :
  k ∈ ["input_ids"; "input_mask"; "segment_ids"; "labels"] ->
  inputs !! k = None -> raises (create_feature_and_label inputs).
Proof.
  intros Hk Hnone. unfold create_feature_and_label, raises, getitem.
  repeat (apply elem_of_cons in Hk as [->|Hk]);
    [ | | | | by apply elem_of_nil in Hk];
    repeat (match goal with
            | |- context [inputs !! ?f] =>
                lazymatch goal with
                | H : inputs !! f = None |- _ => rewrite H
                | _ => destruct (inputs !! f) eqn:?
                end
            end; simpl; eauto).
Qed.

(** C9.  On a batch that has the four required fields,
    [create_feature_and_label] returns them unchanged together with an
    additional-labels mapping whose keys are exactly the names of the
    24-element [_IDENTITY_LABELS] present in the batch, each with the value
    the batch has for it; and the result only depends on the fields with
    those 28 names. *)
Theorem create_feature_and_label_spec {V : Type} (inputs : gmap string V)
  (ids mask segments labels : V) :
  inputs !! "input_ids" = Some ids ->
  inputs !! "input_mask" = Some mask ->
  inputs !! "segment_ids" = Some segments ->
  inputs !! "labels" = Some labels ->
  exists additional_labels : gmap string V,
    create_feature_and_label inputs = Ok ([ids; mask; segments], labels, additional_labels) /\
    length _IDENTITY_LABELS = 24%nat /\
    (forall k, is_Some (additional_labels !! k) <->
               k ∈ _IDENTITY_LABELS /\ is_Some (inputs !! k)) /\
    (forall k v, additional_labels !! k = Some v -> inputs !! k = Some v) /\
    (forall inputs' : gmap string V,
       (forall k, k ∈ consulted_fields -> inputs' !! k = inputs !! k) ->
       create_feature_and_label inputs' = create_feature_and_label inputs).
Proof.
  intros Hids Hmask Hseg Hlab.
  exists (foldl (copy_label inputs) ∅ _IDENTITY_LABELS).
  split; [| split; [reflexivity | split; [| split]]].
  - unfold create_feature_and_label, getitem.
    rewrite Hids, Hmask, Hseg, Hlab. reflexivity.
  - intros k. rewrite additional_labels_lookup.
    destruct (decide (k ∈ _IDENTITY_LABELS)) as [Hin|Hnin].
    + tauto.
    + split; [intros [v Hv]; discriminate | tauto].
  - intros k v. rewrite additional_labels_lookup.
    destruct (decide (k ∈ _IDENTITY_LABELS)); [tauto | discriminate].
  - intros inputs' Hagree.
    assert (Hfold : foldl (copy_label inputs') ∅ _IDENTITY_LABELS
                    = foldl (copy_label inputs) ∅ _IDENTITY_LABELS).
    { apply map_eq. intros k. rewrite !additional_labels_lookup.
      destruct (decide (k ∈ _IDENTITY_LABELS)) as [Hin|]; [|reflexivity].
      apply Hagree. unfold consulted_fields. apply elem_of_app. by right. }
    unfold create_feature_and_label, getitem. rewrite Hfold.
    rewrite !Hagree; [reflexivity | | | | ];
      unfold consulted_fields; apply elem_of_app; left;
      repeat (first [by left | right]).
Qed.

Lemma create_feature_and_label_spec_witness :
  exists additional_labels : gmap string tensor,
    create_feature_and_label (sample_batch 1)
    = Ok ([IntTensor [[101; 2023; 102]]; IntTensor [[1; 1; 1]]; IntTensor [[0; 0; 0]]],
          FloatTensor [1%R], additional_labels) /\
    additional_labels !! "male" = Some (FloatTensor [0%R]) /\
    additional_labels !! "labels" = None.
Proof.
  destruct (create_feature_and_label_spec (sample_batch 1)
              (IntTensor [[101; 2023; 102]]) (IntTensor [[1; 1; 1]])
              (IntTensor [[0; 0; 0]]) (FloatTensor [1%R])
              eq_refl eq_refl eq_refl eq_refl)
    as (additional_labels & Hrun & _ & Hkeys & Hvals & _).
  exists additional_labels. split; [exact Hrun|]. split.
  - assert (Hsome : is_Some (additional_labels !! "male")).
    { apply Hkeys. split; [| by eexists].
      unfold _IDENTITY_LABELS. by left. }
    destruct Hsome as [v Hv]. rewrite Hv. f_equal.
    apply Hvals in Hv.
    assert (Hmale : Some v = Some (FloatTensor [0%R])) by (rewrite <- Hv; reflexivity).
    injection Hmale as ->. reflexivity.
  - destruct (additional_labels !! "labels") as [v|] eqn:Hv; [|reflexivity].
    exfalso. assert (Hsome : is_Some (additional_labels !! "labels")) by eauto.
    apply Hkeys in Hsome as [Hin _].
    unfold _IDENTITY_LABELS in Hin.
    repeat (apply elem_of_cons in Hin as [Hin|Hin]; [discriminate|]).
    by apply elem_of_nil in Hin.
Defined.

(** ** Start-up *)

(** C5.  In training mode, when the run directory holds a checkpoint, every
    tracked variable (model weights, optimizer slots, step counter) takes the
    checkpoint's value and the initial epoch is the restored step counter
    integer-divided by [steps_per_epoch]; when it holds none, start-up still
    succeeds, the initial epoch is 0, the encoder gets the pretrained
    weights and everything else is left as built. *)
Theorem restore_or_load_spec (E : Env) (F : Flags) (bert_ckpt_dir : option string)
  (steps_per_epoch : Z) (theta : Params) :
  prediction_mode F = false ->
  (forall path,
     latest_checkpoint E (output_dir F) = Some path -> path <> "" ->
     restore_or_load E F bert_ckpt_dir steps_per_epoch theta
     = Ok (read_checkpoint E path,
           iterations (read_checkpoint E path) / steps_per_epoch)) /\
  (latest_checkpoint E (output_dir F) = None ->
   exists theta',
     restore_or_load E F bert_ckpt_dir steps_per_epoch theta = Ok (theta', 0) /\
     encoder theta' = load_bert_weight_from_ckpt E (encoder theta) bert_ckpt_dir /\
     head theta' = head theta /\
     opt_slots theta' = opt_slots theta /\
     iterations theta' = iterations theta).
Proof.
  intros Htrain. unfold restore_or_load, find_latest_checkpoint. rewrite Htrain.
  split.
  - intros path -> Hpath. simpl.
    destruct path as [|c path]; [congruence|]. reflexivity.
  - intros ->. simpl. eexists. split; [reflexivity|]. simpl. auto.
Qed.

Lemma restore_or_load_spec_witness :
  restore_or_load (sample_env 1 "/tmp/toxic_comments") (sample_flags 0 1 false None)
    (Some "/bert/bert_model.ckpt") 2 (sample_params 0 0)
  = Ok (sample_params 5 7, 3) /\
  restore_or_load (sample_env 1 "/elsewhere") (sample_flags 0 1 false None)
    (Some "/bert/bert_model.ckpt") 2 (sample_params 0 0)
  = Ok ({| encoder := [1%R]; head := [0%R]; opt_slots := []; iterations := 0 |}, 0).
Proof.
  split.
  - refine (proj1 (restore_or_load_spec (sample_env 1 "/tmp/toxic_comments")
                     (sample_flags 0 1 false None) (Some "/bert/bert_model.ckpt") 2
                     (sample_params 0 0) eq_refl)
              "/tmp/toxic_comments/checkpoint-7" eq_refl _).
    discriminate.
  - destruct (proj2 (restore_or_load_spec (sample_env 1 "/elsewhere")
                       (sample_flags 0 1 false None) (Some "/bert/bert_model.ckpt") 2
                       (sample_params 0 0) eq_refl) eq_refl)
      as (theta' & Hrun & Henc & Hhead & Hopt & Hit).
    rewrite Hrun. destruct theta'. simpl in *. subst. reflexivity.
Defined.


(** ** End of data *)

Lemma final_eval_step_exhausted (E : Env) (F : Flags) (theta : Params) :
  final_eval_step E F theta [] = Raise OutOfRangeError.
Proof. reflexivity. Qed.

Lemma test_step_exhausted (E : Env) (F : Flags) (theta : Params) (name : string)
  (m : gmap string metric) :
  test_step E F theta name [] m = Raise OutOfRangeError.
Proof. reflexivity. Qed.

Lemma train_step_exhausted (E : Env) (F : Flags) (st : train_state) :
  train_step E F [] st = Raise OutOfRangeError.
Proof. reflexivity. Qed.

(** In prediction mode an exhausted iterator turns every remaining
    iteration into a no-op. *)
Lemma predict_loop_exhausted (E : Env) (F : Flags) (theta : Params) (name : string)
  (steps : list Z) (p : predictions) :
  for_each steps (predict_iteration E F theta name) ([], p) = Ok ([], p).
Proof. apply for_each_fixed. intros step. reflexivity. Qed.

Lemma seq_shift_of_nat (a len : nat) :
  forall start,
    map Z.of_nat (seq (a + start) len)
    = map (fun i => Z.of_nat a + i) (map Z.of_nat (seq start len)).
Proof.
  induction len as [|len IH]; intros start; simpl; [reflexivity|].
  f_equal; [lia|]. rewrite <- IH. f_equal. f_equal. lia.
Qed.

Lemma range_add (n k : Z) :
  0 <= n -> 0 <= k -> range (n + k) = (range n ++ map (fun i => n + i) (range k))%list.
Proof.
  intros Hn Hk. unfold range.
  rewrite Z2Nat.inj_add by lia. rewrite seq_app, map_app. f_equal.
  replace (0 + Z.to_nat n)%nat with (Z.to_nat n + 0)%nat by lia.
  rewrite seq_shift_of_nat. apply map_ext. intros i. lia.
Qed.

Lemma predict_loop_extra_steps (E : Env) (F : Flags) (theta : Params) (name : string)
  (n k : Z) (test_dataset : list batch) (p : predictions) :
  0 <= n -> 0 <= k ->
  predict_loop E F theta name n test_dataset = Ok ([], p) ->
  predict_loop E F theta name (n + k) test_dataset = Ok ([], p).
Proof.
  intros Hn Hk Hrun. unfold predict_loop in *.
  rewrite range_add by assumption. rewrite for_each_app, Hrun. simpl.
  apply predict_loop_exhausted.
Qed.

(** In training mode nothing catches the end-of-data signal: an evaluation
    pass that asks for more steps than the iterator has batches raises. *)
Lemma eval_steps_run_out (E : Env) (F : Flags) (theta : Params) (name : string)
  (steps : list Z) :
  forall (test_iterator : list batch) (m : gmap string metric),
    (length test_iterator < length steps)%nat ->
    raises (for_each steps (fun _ s => test_step E F theta name s.1 s.2)
              (test_iterator, m)).
Proof.
  induction steps as [|step steps IH]; intros test_iterator m Hlen; simpl in *; [lia|].
  destruct test_iterator as [|b rest].
  - exists OutOfRangeError. reflexivity.
  - destruct (test_step E F theta name (b :: rest) m) as [[it' m']|e] eqn:Hstep; simpl.
    + unfold test_step in Hstep. simpl in Hstep.
      apply bind_ok in Hstep as (m1 & _ & Hret). injection Hret as <- <-.
      apply IH. simpl in Hlen. lia.
    + exists e. reflexivity.
Qed.

Lemma eval_dataset_runs_out (E : Env) (F : Flags) (theta : Params) (name : string)
  (steps : Z) (test_dataset : list batch) (m : gmap string metric) :
  Z.of_nat (length test_dataset) < steps ->
  raises (eval_dataset E F theta name steps test_dataset m).
Proof.
  intros Hlen. unfold eval_dataset.
  destruct (eval_steps_run_out E F theta name (range steps) test_dataset m) as [e He].
  - unfold range. rewrite length_map, length_seq. lia.
  - exists e. rewrite He. reflexivity.
Qed.

Lemma train_steps_run_out (E : Env) (F : Flags) (steps : list Z) :
  forall (train_iterator : list batch) (st : train_state),
    (length train_iterator < length steps)%nat ->
    raises (for_each steps (fun _ s => train_step E F s.1 s.2) (train_iterator, st)).
Proof.
  induction steps as [|step steps IH]; intros train_iterator st Hlen; simpl in *; [lia|].
  destruct train_iterator as [|b rest].
  - exists OutOfRangeError. reflexivity.
  - destruct (train_step E F (b :: rest) st) as [[it' st']|e] eqn:Hstep; simpl.
    + unfold train_step in Hstep. simpl in Hstep.
      apply bind_ok in Hstep as (st1 & _ & Hret). injection Hret as <- <-.
      apply IH. simpl in Hlen. lia.
    + exists e. reflexivity.
Qed.

Lemma eval_dataset_end_of_data (E : Env) (F : Flags) (theta : Params) (name : string)
  (n k : Z) (test_dataset : list batch) (m m' : gmap string metric) :
  0 <= n -> 0 < k ->
  for_each (range n) (fun _ s => test_step E F theta name s.1 s.2) (test_dataset, m)
  = Ok ([], m') ->
  eval_dataset E F theta name (n + k) test_dataset m = Raise OutOfRangeError.
Proof.
  intros Hn Hk Hrun. unfold eval_dataset.
  rewrite range_add by lia. rewrite for_each_app, Hrun.
  destruct (range_pos k Hk) as [rest ->]. reflexivity.
Qed.

Lemma train_epoch_end_of_data (E : Env) (F : Flags) (n k : Z)
  (train_iterator : list batch) (st st' : train_state) :
  0 <= n -> 0 < k ->
  train_epoch E F n (train_iterator, st) = Ok ([], st') ->
  train_epoch E F (n + k) (train_iterator, st) = Raise OutOfRangeError.
Proof.
  intros Hn Hk Hrun. unfold train_epoch in *.
  rewrite range_add by lia. rewrite for_each_app, Hrun.
  destruct (range_pos k Hk) as [rest ->]. reflexivity.
Qed.

(** ** Metric updates *)

Lemma update_state_ok (name : string) (u : update) (ms : gmap string metric) (m : metric) :
  ms !! name = Some m ->
  update_state name u ms
  = Ok (<[name := {| kind := kind m; history := history m ++ [u] |}]> ms).
Proof. intros Hm. unfold update_state, getitem. rewrite Hm. reflexivity. Qed.

Lemma update_state_inv (name : string) (u : update) (ms ms' : gmap string metric) :
  update_state name u ms = Ok ms' ->
  exists m, ms !! name = Some m /\
            ms' = <[name := {| kind := kind m; history := history m ++ [u] |}]> ms.
Proof.
  unfold update_state, getitem. destruct (ms !! name) as [m|]; simpl; [|discriminate].
  intros [= <-]. eauto.
Qed.

Lemma update_state_reset (name : string) (u : update) (ms ms' : gmap string metric) :
  update_state name u ms = Ok ms' -> reset_states <$> ms' = reset_states <$> ms.
Proof.
  intros (m & Hm & ->)%update_state_inv.
  rewrite fmap_insert. apply insert_id. rewrite lookup_fmap, Hm. reflexivity.
Qed.

Lemma update_state_present (name other : string) (u : update)
  (ms ms' : gmap string metric) :
  update_state name u ms = Ok ms' -> is_Some (ms !! other) -> is_Some (ms' !! other).
Proof.
  intros (m & Hm & ->)%update_state_inv Hother.
  destruct (decide (name = other)) as [->|Hne].
  - rewrite lookup_insert_eq. eauto.
  - rewrite lookup_insert_ne by assumption. assumption.
Qed.

Lemma update_all_reset (names : list string) (u : update) :
  forall ms ms' : gmap string metric,
    update_all names u ms = Ok ms' -> reset_states <$> ms' = reset_states <$> ms.
Proof.
  induction names as [|name names IH]; simpl; intros ms ms' Hrun.
  - congruence.
  - apply bind_ok in Hrun as (ms1 & H1 & H2).
    rewrite (IH _ _ H2). eapply update_state_reset, H1.
Qed.

Lemma update_all_ok (names : list string) (u : update) :
  forall ms : gmap string metric,
    (forall name, name ∈ names -> is_Some (ms !! name)) ->
    exists ms', update_all names u ms = Ok ms'.
Proof.
  induction names as [|name names IH]; simpl; intros ms Hpresent.
  - eauto.
  - destruct (Hpresent name) as [m Hm]; [by left|].
    rewrite (update_state_ok _ _ _ _ Hm). simpl.
    apply IH. intros other Hother.
    eapply update_state_present; [apply (update_state_ok _ u _ _ Hm)|].
    apply Hpresent. by right.
Qed.

(** ** The calibrator *)

Lemma mean_field_logits_negative (logits : list R) (covmat : list (list R)) (f : R) :
  (f < 0)%R -> mean_field_logits logits covmat f = Ok logits.
Proof.
  intros Hf. unfold mean_field_logits.
  destruct (Rlt_dec f 0) as [_|Hge]; [reflexivity | contradiction].
Qed.

Lemma diag_part_eye (n : nat) : diag_part (eye n) = replicate n 1%R.
Proof.
  unfold diag_part, eye.
  assert (Hgen : forall k start,
             (start + k <= n)%nat ->
             imap (fun i row => nth (start + i) row 0%R)
               (map (fun i => map (fun j => if Nat.eqb i j then 1%R else 0%R) (seq 0 n))
                    (seq start k))
             = replicate k 1%R).
  { induction k as [|k IH]; intros start Hle; simpl; [reflexivity|].
    f_equal.
    - rewrite Nat.add_0_r.
      rewrite (nth_indep _ 0%R ((fun j => if Nat.eqb start j then 1%R else 0%R) 0%nat))
        by (rewrite length_map, length_seq; lia).
      rewrite (map_nth (fun j => if Nat.eqb start j then 1%R else 0%R)).
      rewrite seq_nth by lia. simpl. rewrite Nat.eqb_refl. reflexivity.
    - rewrite <- (IH (S start)) by lia.
      apply imap_ext. intros i row _. simpl. f_equal. lia. }
  apply (Hgen n 0%nat). lia.
Qed.

Lemma broadcast2_same_length (f : R -> R -> R) (xs ys : list R) :
  length xs = length ys -> broadcast2 f xs ys = Ok (zip_with f xs ys).
Proof.
  intros Hlen. unfold broadcast2.
  destruct xs as [|x [|x' xs]], ys as [|y [|y' ys]]; simpl in *;
    try discriminate; try reflexivity.
  injection Hlen as Hlen. rewrite Hlen, Nat.eqb_refl. reflexivity.
Qed.

Lemma zip_with_replicate_r (f : R -> R -> R) (xs : list R) (s : R) :
  zip_with f xs (replicate (length xs) s) = map (fun x => f x s) xs.
Proof. induction xs as [|x xs IH]; simpl; [reflexivity | by rewrite IH]. Qed.

(** With the identity as covariance every variance is 1: the calibrator
    divides each logit by [sqrt(1 + mean_field_factor)]. *)
Lemma mean_field_logits_eye (logits : list R) (f : R) :
  (0 <= f)%R ->
  mean_field_logits logits (eye (length logits)) f
  = Ok (map (fun x => x / sqrt (1 + f))%R logits).
Proof.
  intros Hf. unfold mean_field_logits.
  destruct (Rlt_dec f 0) as [Hlt|_]; [lra|].
  rewrite diag_part_eye.
  rewrite broadcast2_same_length by (rewrite length_map, length_replicate; reflexivity).
  f_equal.
  replace (map (fun v => sqrt (1 + v * f)) (replicate (length logits) 1%R))
    with (replicate (length logits) (sqrt (1 + f))).
  - apply zip_with_replicate_r.
  - generalize (length logits) as n. induction n as [|n IH]; simpl; [reflexivity|].
    rewrite <- IH. f_equal. f_equal. lra.
Qed.

Lemma sqrt_above_one (f : R) : (0 < f)%R -> (1 < sqrt (1 + f))%R.
Proof.
  intros Hf. rewrite <- sqrt_1 at 1. apply sqrt_lt_1_alt. lra.
Qed.

Lemma length_eye (n : nat) : length (eye n) = n.
Proof. unfold eye. rewrite length_map, length_seq. reflexivity. Qed.

(** C2 (as the code has it).  In baseline mode the covariance handed to the
    calibrator is the identity matrix of size [test_batch_size]; on a batch
    of that size the calibrator returns the logits as they are when the
    mean-field factor is negative or zero, and divides every logit by
    [sqrt(1 + mean_field_factor)] when it is non-negative, which is also what
    an evaluation forward pass returns, with a standard deviation of 1 per
    example. *)
Theorem baseline_identity_covariance (F : Flags) (logits : list R) :
  length logits = Z.to_nat (test_batch_size F) ->
  logits_and_covmat F (Bare logits) = (logits, eye (Z.to_nat (test_batch_size F))) /\
  ((gp_mean_field_factor F < 0)%R ->
     mean_field_logits logits (eye (Z.to_nat (test_batch_size F))) (gp_mean_field_factor F)
     = Ok logits) /\
  ((0 <= gp_mean_field_factor F)%R ->
     mean_field_logits logits (eye (Z.to_nat (test_batch_size F))) (gp_mean_field_factor F)
     = Ok (map (fun x => x / sqrt (1 + gp_mean_field_factor F))%R logits)) /\
  (gp_mean_field_factor F = 0%R ->
     mean_field_logits logits (eye (Z.to_nat (test_batch_size F))) (gp_mean_field_factor F)
     = Ok logits) /\
  (forall (E : Env) (theta : Params) (features : list tensor),
     model E theta features false = Bare logits ->
     (0 <= gp_mean_field_factor F)%R ->
     eval_forward E F theta features
     = Ok (map (fun x => x / sqrt (1 + gp_mean_field_factor F))%R logits,
           replicate (length logits) 1%R)).
Proof.
  intros Hlen. split; [reflexivity|]. rewrite <- Hlen.
  split; [| split; [| split]].
  - intros Hneg. by apply mean_field_logits_negative.
  - intros Hpos. by apply mean_field_logits_eye.
  - intros Hzero. rewrite mean_field_logits_eye by lra.
    rewrite Hzero. f_equal. rewrite <- (map_id logits) at 2.
    apply map_ext. intros x. rewrite Rplus_0_r, sqrt_1. lra.
  - intros E theta features Hmodel Hpos. unfold eval_forward.
    rewrite Hmodel. simpl. rewrite <- Hlen.
    rewrite mean_field_logits_eye by assumption. simpl.
    rewrite diag_part_eye. do 2 f_equal.
    generalize (length logits) as n. induction n as [|n IH]; simpl; [reflexivity|].
    rewrite IH, sqrt_1. reflexivity.
Qed.

Lemma baseline_identity_covariance_witness :
  mean_field_logits [2%R] (eye 1) default_mean_field_factor
  = Ok [(2 / sqrt (1 + default_mean_field_factor))%R].
Proof.
  refine (proj1 (proj2 (proj2
            (baseline_identity_covariance
               (sample_flags default_mean_field_factor 1 false None) [2%R] eq_refl))) _).
  simpl. unfold default_mean_field_factor. lra.
Defined.

(** The claim C2 fails as stated: under the default mean-field factor
    [1e-4] a baseline forward pass that yields logit 2 for its one example
    gets the identity as covariance and comes back calibrated to
    [2 / sqrt(1.0001)], which is not 2. *)
Lemma baseline_calibration_changes_logits :
  let F := sample_flags default_mean_field_factor 1 false None in
  logits_and_covmat F (Bare [2%R]) = ([2%R], eye 1) /\
  eval_forward (sample_env 1 "/run") F (sample_params 0 0) []
  = Ok ([(2 / sqrt (1 + default_mean_field_factor))%R], [1%R]) /\
  mean_field_logits [2%R] (eye 1) (gp_mean_field_factor F) <> Ok [2%R].
Proof.
  intros F.
  assert (Hpos : (0 <= default_mean_field_factor)%R)
    by (unfold default_mean_field_factor; lra).
  assert (Hcal : mean_field_logits [2%R] (eye 1) default_mean_field_factor
                 = Ok [(2 / sqrt (1 + default_mean_field_factor))%R])
    by (apply (mean_field_logits_eye [2%R]); exact Hpos).
  split; [reflexivity|]. split.
  - unfold eval_forward. simpl. change (Z.to_nat (test_batch_size F)) with 1%nat.
    change (gp_mean_field_factor F) with default_mean_field_factor.
    rewrite Hcal. simpl. rewrite sqrt_1. reflexivity.
  - change (gp_mean_field_factor F) with default_mean_field_factor. rewrite Hcal.
    intros [= Heq].
    assert (Hgt : (1 < sqrt (1 + default_mean_field_factor))%R)
      by (apply sqrt_above_one; unfold default_mean_field_factor; lra).
    apply (Rmult_eq_compat_r (sqrt (1 + default_mean_field_factor))) in Heq.
    unfold Rdiv in Heq. rewrite Rmult_assoc, Rinv_l, Rmult_1_r in Heq by lra.
    lra.
Qed.

(** ** The Monte-Carlo negative log-likelihood *)

Lemma list_as_map_nth (l : list R) :
  map (fun i => nth i l 0%R) (seq 0 (length l)) = l.
Proof.
  induction l as [|x l IH]; simpl; [reflexivity|].
  f_equal. rewrite <- seq_shift, map_map. exact IH.
Qed.

Lemma zip_with_maps {A : Type} (f : R -> R -> R) (g h : A -> R) (l : list A) :
  zip_with f (map g l) (map h l) = map (fun a => f (g a) (h a)) l.
Proof. induction l as [|a l IH]; simpl; [reflexivity | by rewrite IH]. Qed.

Lemma nth_zip_with (f : R -> R -> R) (xs ys : list R) (i : nat) :
  length xs = length ys -> (i < length xs)%nat ->
  nth i (zip_with f xs ys) 0%R = f (nth i xs 0%R) (nth i ys 0%R).
Proof.
  revert ys i. induction xs as [|x xs IH]; intros [|y ys] [|i] Hlen Hi;
    simpl in *; try lia; try reflexivity.
  apply IH; lia.
Qed.

(** Summing a rectangular tensor along axis 0 sums each column. *)
Lemma reduce_sum_axis0_columns (n : nat) (rest : list (list R)) :
  forall r : list R,
    length r = n -> Forall (fun row => length row = n) rest ->
    foldl (zip_with Rplus) r rest
    = map (fun i => (nth i r 0 + reduce_sum (map (fun row => nth i row 0) rest))%R)
          (seq 0 n).
Proof.
  induction rest as [|x rest IH]; intros r Hr Hrows; simpl.
  - rewrite <- (list_as_map_nth r) at 1. rewrite Hr.
    apply map_ext. intros i. lra.
  - apply Forall_cons in Hrows as [Hx Hrest].
    rewrite (IH (zip_with Rplus r x)); [| | assumption].
    + apply map_ext_in. intros i Hi. apply in_seq in Hi.
      rewrite nth_zip_with by lia. lra.
    + rewrite length_zip_with. lia.
Qed.

Lemma cross_entropy_rows_ok (labels : list R) (logits_list : list (list R)) :
  Forall (fun logits => length logits = length labels) logits_list ->
  cross_entropy_rows (replicate (length logits_list) labels) logits_list
  = Ok (map (zip_with sigmoid_cross_entropy labels) logits_list).
Proof.
  intros Hrows. unfold cross_entropy_rows.
  rewrite length_replicate, Nat.eqb_refl.
  induction Hrows as [|logits logits_list Hlen _ IH]; simpl; [reflexivity|].
  unfold sigmoid_cross_entropy_with_logits, same_shape2.
  rewrite Hlen, Nat.eqb_refl. simpl.
  unfold sigmoid_cross_entropy_with_logits, same_shape2 in IH. rewrite IH.
  reflexivity.
Qed.

Lemma mc_nll_stacked (samples : Z) (labels : list R) (logits_list : list (list R)) :
  1 <= samples ->
  length logits_list = Z.to_nat samples ->
  Forall (fun logits => length logits = length labels) logits_list ->
  mc_negative_log_likelihood samples labels logits_list
  = Ok (batch_nll samples labels logits_list).
Proof.
  intros Hs Hlen Hrows.
  unfold mc_negative_log_likelihood. rewrite <- Hlen.
  rewrite cross_entropy_rows_ok by assumption. simpl.
  unfold batch_nll, reduce_logsumexp_axis0, reduce_sum_axis0. do 2 f_equal.
  destruct logits_list as [|logits0 rest]; [simpl in Hlen; lia|].
  apply Forall_cons in Hrows as [H0 Hrest]. cbn [map].
  assert (Hcol : forall logits i,
             length logits = length labels -> (i < length labels)%nat ->
             nth i (map (fun c => exp (- c))
                      (zip_with sigmoid_cross_entropy labels logits)) 0%R
             = exp (- sigmoid_cross_entropy (nth i labels 0%R) (nth i logits 0%R))).
  { intros logits i Hl Hi.
    rewrite (nth_indep _ 0%R (exp (- 0))) by (rewrite length_map, length_zip_with; lia).
    rewrite (map_nth (fun c => exp (- c))). rewrite nth_zip_with by lia.
    reflexivity. }
  rewrite (reduce_sum_axis0_columns (length labels)).
  - rewrite !map_map. apply map_ext_in. intros i Hi. apply in_seq in Hi.
    unfold example_nll. cbn [map]. change (reduce_sum (?x :: ?l)) with (x + reduce_sum l)%R.
    rewrite Hcol by lia. rewrite !map_map.
    do 5 f_equal. apply map_ext_in. intros logits Hin.
    rewrite map_map. apply Hcol; [| lia].
    eapply Forall_forall in Hrest; [exact Hrest | by apply list_elem_of_In].
  - rewrite !length_map, length_zip_with. lia.
  - rewrite !Forall_map. eapply Forall_impl; [exact Hrest|].
    simpl. intros logits Hl. rewrite !length_map, length_zip_with. lia. 
Qed.

Lemma batch_nll_single (labels logits : list R) :
  length logits = length labels ->
  batch_nll 1 labels [logits]
  = reduce_mean (zip_with sigmoid_cross_entropy labels logits).
Proof.
  intros H0. unfold batch_nll. f_equal.
  rewrite <- (list_as_map_nth (zip_with sigmoid_cross_entropy labels logits)).
  rewrite length_zip_with, H0, Nat.min_id.
  apply map_ext_in. intros i Hi. apply in_seq in Hi.
  unfold example_nll. simpl. rewrite nth_zip_with by lia.
  rewrite Rplus_0_r, ln_exp, ln_1. lra.
Qed.

Lemma sigmoid_cross_entropy_same_shape (labels logits : list R) :
  length logits = length labels ->
  sigmoid_cross_entropy_with_logits labels logits
  = Ok (zip_with sigmoid_cross_entropy labels logits).
Proof.
  intros H0. unfold sigmoid_cross_entropy_with_logits, same_shape2.
  rewrite H0, Nat.eqb_refl. reflexivity.
Qed.

Lemma mc_negative_log_likelihood_single (labels logits : list R) :
  length logits = length labels ->
  mc_negative_log_likelihood 1 labels [logits]
  = Ok (reduce_mean (zip_with sigmoid_cross_entropy labels logits)).
Proof.
  intros Hlen. rewrite mc_nll_stacked; [| lia | reflexivity | by constructor].
  f_equal. by apply batch_nll_single.
Qed.

(** C1.  For [num_mc_samples >= 1] stacked samples of one shape, the
    negative log-likelihood of the evaluation step is, example by example,
    minus the log of the sum over samples of [exp(-crossentropy)] plus
    [log(num_mc_samples)], averaged over the batch; with one sample it is the
    plain mean of the binary cross-entropy of the batch, the
    [negative_log_likelihood] of the training step. *)
Theorem mc_nll_is_probability_mixture (samples : Z) (labels : list R)
  (logits_list : list (list R)) :
  1 <= samples ->
  length logits_list = Z.to_nat samples ->
  Forall (fun logits => length logits = length labels) logits_list ->
  mc_negative_log_likelihood samples labels logits_list
  = Ok (batch_nll samples labels logits_list) /\
  (samples = 1 ->
   exists logits ce,
     logits_list = [logits] /\
     sigmoid_cross_entropy_with_logits labels logits = Ok ce /\
     per_example_loss cross_entropy labels logits = Ok ce /\
     mc_negative_log_likelihood samples labels logits_list = Ok (reduce_mean ce)).
Proof.
  intros Hs Hlen Hrows. split; [by apply mc_nll_stacked|].
  intros ->. destruct logits_list as [|logits [|logits' rest]]; simpl in Hlen; try lia.
  apply Forall_cons in Hrows as [H0 _].
  exists logits, (zip_with sigmoid_cross_entropy labels logits).
  split; [reflexivity|].
  split; [by apply sigmoid_cross_entropy_same_shape|].
  split; [by apply sigmoid_cross_entropy_same_shape|].
  by apply mc_negative_log_likelihood_single.
Qed.

Lemma sigmoid_cross_entropy_confident :
  sigmoid_cross_entropy 1 2 = ln (1 + exp (IZR (-2))) /\
  sigmoid_cross_entropy 0 (IZR (-2)) = ln (1 + exp (IZR (-2))).
Proof.
  unfold sigmoid_cross_entropy. split.
  - rewrite Rmax_left by lra. rewrite Rabs_right by lra.
    change (Ropp (IZR 2)) with (IZR (Zneg 2)). lra.
  - rewrite Rmax_right by lra. rewrite Rabs_left by lra.
    rewrite Ropp_involutive. lra.
Qed.

(** The batch of the design's example: labels [1, 0, 1, 0], logits
    [2, -2, 2, -2], one Monte-Carlo sample. *)
Lemma mc_nll_is_probability_mixture_witness :
  mc_negative_log_likelihood 1 [1; 0; 1; 0]%R [[2; -2; 2; -2]%R]
  = Ok (reduce_mean (zip_with sigmoid_cross_entropy [1; 0; 1; 0]%R [2; -2; 2; -2]%R)) /\
  reduce_mean (zip_with sigmoid_cross_entropy [1; 0; 1; 0]%R [2; -2; 2; -2]%R)
  = ln (1 + exp (IZR (-2))).
Proof.
  split.
  - destruct (mc_nll_is_probability_mixture 1 [1; 0; 1; 0]%R [[2; -2; 2; -2]%R])
      as [_ Hone].
    + lia.
    + reflexivity.
    + repeat constructor.
    + destruct (Hone eq_refl) as (logits & ce & Hlist & Hce & _ & Hnll).
      injection Hlist as <-.
      unfold sigmoid_cross_entropy_with_logits, same_shape2 in Hce. simpl in Hce.
      injection Hce as <-. exact Hnll.
  - unfold reduce_mean, reduce_sum. simpl.
    destruct sigmoid_cross_entropy_confident as [-> ->]. lra.
Defined.

(** ** The scaled loss *)

Lemma train_losses_inv (E : Env) (F : Flags) (features : list tensor) (labels : tensor)
  (theta : Params) (nll loss : R) :
  train_losses E F features labels theta = Ok (nll, loss) ->
  loss = (nll + reduce_sum (model_losses E theta))%R.
Proof.
  unfold train_losses. intros Hrun.
  apply bind_ok in Hrun as (labels_f & _ & Hrun).
  apply bind_ok in Hrun as (per_example & _ & Hrun).
  injection Hrun as <- <-. reflexivity.
Qed.

Lemma reduce_sum_replicate (n : nat) (x : R) :
  reduce_sum (replicate n x) = (INR n * x)%R.
Proof.
  induction n as [|n IH].
  - simpl. lra.
  - rewrite S_INR. simpl replicate. unfold reduce_sum in *. simpl. rewrite IH. lra.
Qed.

Lemma derivable_pt_lim_scaled (L : R -> R) (t0 g c : R) :
  (1 <= c)%R ->
  derivable_pt_lim L t0 g -> derivable_pt_lim (fun t => L t / c)%R t0 (g / c)%R.
Proof.
  intros Hc HL eps Heps. destruct (HL eps Heps) as [delta Hdelta].
  exists delta. intros h Hh Hsmall. specialize (Hdelta h Hh Hsmall).
  replace ((L (t0 + h) / c - L t0 / c) / h - g / c)%R
    with (((L (t0 + h) - L t0) / h - g) * / c)%R by (field; split; lra).
  rewrite Rabs_mult. rewrite (Rabs_right (/ c)).
  - assert (Hinv : (/ c <= 1)%R).
    { rewrite <- Rinv_1. apply Rinv_le_contravar; lra. }
    assert (Hnn : (0 <= Rabs ((L (t0 + h) - L t0) / h - g))%R) by apply Rabs_pos.
    assert (Hci : (0 < / c)%R) by (apply Rinv_0_lt_compat; lra).
    nra.
  - left. apply Rinv_0_lt_compat. lra.
Qed.

(** C7.  The training step hands the optimizer the tape of the scaled loss;
    the scaled loss is the total loss (negative log-likelihood plus the
    regularization losses) times [1 / num_replicas_in_sync]; along any path of
    variables its derivative is the derivative of the total loss divided by
    the replica count, so that the sum over the replicas of identical
    per-replica gradients is the gradient of the total loss for every replica
    count. *)
Theorem scaled_loss_is_replica_invariant (E : Env) (F : Flags) :
  (forall inputs st st',
     train_step_fn E F inputs st = Ok st' ->
     exists features labels additional,
       create_feature_and_label inputs = Ok (features, labels, additional) /\
       params st' = apply_gradients E (params st) (taped_loss E F features labels)) /\
  (forall features labels theta nll loss,
     train_losses E F features labels theta = Ok (nll, loss) ->
     loss = (nll + reduce_sum (model_losses E theta))%R /\
     taped_loss E F features labels theta
     = Ok (loss * (1 / IZR (num_replicas_in_sync E)))%R) /\
  (forall features labels (path : R -> Params) (L : R -> R) (t0 g : R),
     1 <= num_replicas_in_sync E ->
     (forall t, exists nll, train_losses E F features labels (path t) = Ok (nll, L t)) ->
     derivable_pt_lim L t0 g ->
     (forall t, taped_loss E F features labels (path t) = Ok (scaled_loss E (L t))) /\
     derivable_pt_lim (fun t => scaled_loss E (L t)) t0
       (g / IZR (num_replicas_in_sync E))%R /\
     reduce_sum (replicate (Z.to_nat (num_replicas_in_sync E))
                   (g / IZR (num_replicas_in_sync E))%R) = g).
Proof.
  split; [| split].
  - intros inputs st st' Hrun. unfold train_step_fn in Hrun.
    apply bind_ok in Hrun as ([[features labels] additional] & Hcreate & Hrun).
    exists features, labels, additional. split; [exact Hcreate|].
    simpl in Hrun.
    apply bind_ok in Hrun as ([nll loss] & _ & Hrun). simpl in Hrun.
    repeat (apply bind_ok in Hrun as (? & _ & Hrun)).
    injection Hrun as <-. reflexivity.
  - intros features labels theta nll loss Hrun. split.
    + eapply train_losses_inv, Hrun.
    + unfold taped_loss. rewrite Hrun. simpl. unfold scaled_loss. f_equal. lra.
  - intros features labels path L t0 g Hn Hloss HL.
    assert (Hc : (1 <= IZR (num_replicas_in_sync E))%R) by (apply IZR_le; lia).
    split; [| split].
    + intros t. destruct (Hloss t) as [nll Hrun]. unfold taped_loss.
      rewrite Hrun. reflexivity.
    + unfold scaled_loss. apply derivable_pt_lim_scaled; assumption.
    + rewrite reduce_sum_replicate, INR_IZR_INZ, Z2Nat.id by lia.
      field. lra.
Qed.

Lemma scaled_loss_is_replica_invariant_witness :
  let E := sample_env 8 "/run" in
  let L := fun t => (reduce_mean [sigmoid_cross_entropy 1 2] + reduce_sum [t])%R in
  derivable_pt_lim (fun t => scaled_loss E (L t)) 0 (1 / 8)%R /\
  reduce_sum (replicate 8 (1 / 8)%R) = 1%R.
Proof.
  intros E L.
  destruct (scaled_loss_is_replica_invariant E (sample_flags 0 1 false None))
    as (_ & _ & Hgrad).
  destruct (Hgrad [] (FloatTensor [1%R]) (fun t => sample_params t 0) L 0%R 1%R)
    as (_ & Hderiv & Hsum).
  - simpl. lia.
  - intros t. eexists. reflexivity.
  - intros eps Heps. exists (mkposreal 1 Rlt_0_1). intros h Hh _.
    unfold L, reduce_sum. simpl.
    replace ((reduce_mean [sigmoid_cross_entropy 1 2] + (0 + h + 0)
              - (reduce_mean [sigmoid_cross_entropy 1 2] + (0 + 0))) / h - 1)%R
      with 0%R by (field; assumption).
    rewrite Rabs_R0. exact Heps.
  - split; [exact Hderiv | exact Hsum].
Defined.

(** ** What the metrics are computed against *)

Lemma create_feature_and_label_ok {V : Type} (inputs : gmap string V)
  (ids mask segments labels : V) :
  inputs !! "input_ids" = Some ids ->
  inputs !! "input_mask" = Some mask ->
  inputs !! "segment_ids" = Some segments ->
  inputs !! "labels" = Some labels ->
  create_feature_and_label inputs
  = Ok ([ids; mask; segments], labels, foldl (copy_label inputs) ∅ _IDENTITY_LABELS).
Proof.
  intros Hids Hmask Hseg Hlab. unfold create_feature_and_label, getitem.
  rewrite Hids, Hmask, Hseg, Hlab. reflexivity.
Qed.

Lemma update_all_other (names : list string) (u : update) (other : string) :
  other ∉ names ->
  forall ms ms' : gmap string metric,
    update_all names u ms = Ok ms' -> ms' !! other = ms !! other.
Proof.
  intros Hnot. induction names as [|name names IH]; simpl; intros ms ms' Hrun.
  - congruence.
  - apply bind_ok in Hrun as (ms1 & H1 & H2).
    apply not_elem_of_cons in Hnot as [Hne Hnot].
    rewrite (IH Hnot _ _ H2).
    apply update_state_inv in H1 as (m & _ & ->).
    apply lookup_insert_ne. congruence.
Qed.

(** The training step succeeds on a well-formed batch, and records the
    accuracy against the labels as they come and the calibration error
    against the thresholded labels. *)
Lemma train_step_fn_ok (E : Env) (F : Flags) (inputs : batch) (st : train_state)
  (ids mask segments : tensor) (labels_f : list R) (nll loss : R)
  (m_acc m_ece m_loss m_nll : metric) :
  inputs !! "input_ids" = Some ids ->
  inputs !! "input_mask" = Some mask ->
  inputs !! "segment_ids" = Some segments ->
  inputs !! "labels" = Some (FloatTensor labels_f) ->
  train_losses E F [ids; mask; segments] (FloatTensor labels_f) (params st) = Ok (nll, loss) ->
  metrics st !! "train/accuracy" = Some m_acc ->
  metrics st !! "train/ece" = Some m_ece ->
  metrics st !! "train/loss" = Some m_loss ->
  metrics st !! "train/negative_log_likelihood" = Some m_nll ->
  let features := [ids; mask; segments] in
  let ece_probs :=
    class_probs (map sigmoid (model_logits (model E (params st) features true))) in
  train_step_fn E F inputs st
  = Ok {| params := apply_gradients E (params st)
                      (taped_loss E F features (FloatTensor labels_f));
          metrics :=
            <["train/negative_log_likelihood" :=
                {| kind := kind m_nll; history := history m_nll ++ [UValues [nll]] |}]>
            (<["train/loss" :=
                {| kind := kind m_loss; history := history m_loss ++ [UValues [loss]] |}]>
            (<["train/ece" :=
                {| kind := kind m_ece;
                   history := history m_ece
                              ++ [ULabelsDist (greater_cast labels_f (ece_label_threshold F))
                                    ece_probs] |}]>
            (<["train/accuracy" :=
                {| kind := kind m_acc;
                   history := history m_acc
                              ++ [ULabelsClasses labels_f (map argmax ece_probs)] |}]>
             (metrics st)))) |}.
Proof.
  intros Hids Hmask Hseg Hlab Hloss Hacc Hece Hl Hn features ece_probs.
  unfold train_step_fn.
  rewrite (create_feature_and_label_ok inputs ids mask segments (FloatTensor labels_f))
    by assumption.
  cbn [mbind result_bind]. rewrite Hloss. cbn [mbind result_bind float_values].
  rewrite (update_state_ok _ _ _ _ Hacc). cbn [mbind result_bind].
  rewrite (update_state_ok "train/ece" _ _ m_ece)
    by (rewrite lookup_insert_ne by discriminate; exact Hece).
  cbn [mbind result_bind].
  rewrite (update_state_ok "train/loss" _ _ m_loss)
    by (rewrite !lookup_insert_ne by discriminate; exact Hl).
  cbn [mbind result_bind].
  rewrite (update_state_ok "train/negative_log_likelihood" _ _ m_nll)
    by (rewrite !lookup_insert_ne by discriminate; exact Hn).
  reflexivity.
Qed.

Lemma sigmoid_two_above_half : (1 - sigmoid 2 < sigmoid 2)%R.
Proof.
  unfold sigmoid.
  assert (Hpos : (0 < exp (Ropp 2))%R) by apply exp_pos.
  assert (Hlt : (exp (Ropp 2) < 1)%R).
  { rewrite <- exp_0. apply exp_increasing. lra. }
  assert (Hinv : (/ 2 < / (1 + exp (Ropp 2)))%R).
  { apply Rinv_lt_contravar; nra. }
  lra.
Qed.

(** C4.  On a well-formed training batch the step succeeds; the expected
    calibration error is updated with the labels thresholded at
    [ece_label_threshold], but the training accuracy is updated with the
    labels as they come, and the predictions are the argmax of the class
    probabilities. *)
Theorem train_accuracy_uses_raw_labels (E : Env) (F : Flags) (inputs : batch)
  (st : train_state) (ids mask segments : tensor) (labels_f : list R) (nll loss : R)
  (m_acc m_ece m_loss m_nll : metric) :
  inputs !! "input_ids" = Some ids ->
  inputs !! "input_mask" = Some mask ->
  inputs !! "segment_ids" = Some segments ->
  inputs !! "labels" = Some (FloatTensor labels_f) ->
  train_losses E F [ids; mask; segments] (FloatTensor labels_f) (params st) = Ok (nll, loss) ->
  metrics st !! "train/accuracy" = Some m_acc ->
  metrics st !! "train/ece" = Some m_ece ->
  metrics st !! "train/loss" = Some m_loss ->
  metrics st !! "train/negative_log_likelihood" = Some m_nll ->
  let ece_probs :=
    class_probs (map sigmoid
                   (model_logits (model E (params st) [ids; mask; segments] true))) in
  exists st',
    train_step_fn E F inputs st = Ok st' /\
    metrics st' !! "train/accuracy"
    = Some {| kind := kind m_acc;
              history := history m_acc
                         ++ [ULabelsClasses labels_f (map argmax ece_probs)] |} /\
    metrics st' !! "train/ece"
    = Some {| kind := kind m_ece;
              history := history m_ece
                         ++ [ULabelsDist (greater_cast labels_f (ece_label_threshold F))
                               ece_probs] |}.
Proof.
  intros Hids Hmask Hseg Hlab Hloss Hacc Hece Hl Hn ece_probs.
  eexists. split.
  - eapply train_step_fn_ok; eassumption.
  - simpl. split.
    + rewrite !lookup_insert_ne by discriminate. apply lookup_insert_eq.
    + rewrite !lookup_insert_ne by discriminate. apply lookup_insert_eq.
Qed.

Lemma argmax_confident : argmax [(1 - sigmoid 2)%R; sigmoid 2] = 1.
Proof.
  unfold argmax, argmax_from.
  destruct (Rlt_dec (1 - sigmoid 2) (sigmoid 2)) as [_|Hge]; [reflexivity|].
  exfalso. apply Hge, sigmoid_two_above_half.
Qed.

Lemma greater_cast_above (y threshold : R) :
  (threshold < y)%R -> greater_cast [y] threshold = [1%R].
Proof.
  intros Hlt. unfold greater_cast. simpl.
  destruct (Rgt_dec y threshold) as [_|Hle]; [reflexivity|].
  exfalso. apply Hle. exact Hlt.
Qed.

(** The training batch with toxicity score 0.8 and logit 2: the accuracy is
    updated with the label 0.8 against the predicted class 1, the calibration
    error with the thresholded label 1. *)
Lemma train_accuracy_uses_raw_labels_witness :
  let E := sample_env 1 "/run" in
  let F := sample_flags 0 1 false None in
  exists st',
    train_step_fn E F (sample_batch (8 / 10))
      {| params := sample_params 0 0; metrics := sample_metrics F |} = Ok st' /\
    metrics st' !! "train/accuracy"
    = Some {| kind := Accuracy; history := [ULabelsClasses [(8 / 10)%R] [1]] |} /\
    metrics st' !! "train/ece"
    = Some {| kind := ExpectedCalibrationError 15;
              history := [ULabelsDist [1%R] [[(1 - sigmoid 2)%R; sigmoid 2]]] |} /\
    greater_cast [(8 / 10)%R] (ece_label_threshold F) <> [(8 / 10)%R].
Proof.
  intros E F.
  assert (Hloss : train_losses E F
                    [IntTensor [[101; 2023; 102]]; IntTensor [[1; 1; 1]];
                     IntTensor [[0; 0; 0]]]
                    (FloatTensor [(8 / 10)%R]) (sample_params 0 0)
                  = Ok (reduce_mean [sigmoid_cross_entropy (8 / 10) 2],
                        (reduce_mean [sigmoid_cross_entropy (8 / 10) 2]
                         + reduce_sum [0%R])%R))
    by reflexivity.
  destruct (train_accuracy_uses_raw_labels E F (sample_batch (8 / 10))
              {| params := sample_params 0 0; metrics := sample_metrics F |}
              (IntTensor [[101; 2023; 102]]) (IntTensor [[1; 1; 1]])
              (IntTensor [[0; 0; 0]]) [(8 / 10)%R] _ _
              (new_metric Accuracy) (new_metric (ExpectedCalibrationError 15))
              (new_metric Mean) (new_metric Mean)
              eq_refl eq_refl eq_refl eq_refl Hloss eq_refl eq_refl eq_refl eq_refl)
    as (st' & Hrun & Hacc & Hece).
  assert (Hcast : greater_cast [(8 / 10)%R] (ece_label_threshold F) = [1%R])
    by (apply greater_cast_above; simpl; lra).
  exists st'. split; [exact Hrun|]. split; [| split].
  - rewrite Hacc, <- argmax_confident. reflexivity.
  - rewrite Hece, Hcast. reflexivity.
  - rewrite Hcast. intros [= Heq]. lra.
Defined.

Lemma update_state_total (name : string) (u : update) (ms : gmap string metric)
  (m : metric) :
  ms !! name = Some m ->
  exists ms',
    update_state name u ms = Ok ms' /\
    ms' !! name = Some {| kind := kind m; history := history m ++ [u] |} /\
    (forall other, other <> name -> ms' !! other = ms !! other) /\
    (forall other, is_Some (ms !! other) -> is_Some (ms' !! other)).
Proof.
  intros Hm. eexists. split; [apply update_state_ok, Hm|].
  split; [apply lookup_insert_eq|]. split.
  - intros other Hne. apply lookup_insert_ne. congruence.
  - intros other Hother. destruct (decide (name = other)) as [->|Hne].
    + rewrite lookup_insert_eq. eauto.
    + rewrite lookup_insert_ne by assumption. exact Hother.
Qed.

Lemma mapM_single {A B : Type} (f : A -> result B) (a : A) (b : B) :
  f a = Ok b -> mapM f [a] = Ok [b].
Proof. intros Hf. simpl. rewrite Hf. reflexivity. Qed.

Lemma collab_names_other (F : Flags) (sfx prefix : string) (c : ascii) (rest : string) :
  Ascii.eqb c "_" = false ->
  prefix = "test" ->
  String.append prefix (String c rest)
  ∉ map (fun fraction => "test_collab_acc/collab_acc_" ++ fraction ++ sfx) (fractions F).
Proof.
  intros Hc -> Hin. apply list_elem_of_In, in_map_iff in Hin as (fraction & Heq & _).
  simpl in Heq. injection Heq as Heq _. subst c. discriminate.
Qed.

(** The evaluation step succeeds on a well-formed batch when one
    Monte-Carlo sample is drawn, and records the accuracy against the
    thresholded labels. *)
Lemma test_step_fn_ok (E : Env) (F : Flags) (theta : Params) (dataset_name : string)
  (inputs : batch) (ms : gmap string metric)
  (ids mask segments : tensor) (labels_f logits stddev : list R) (m_acc : metric) :
  inputs !! "input_ids" = Some ids ->
  inputs !! "input_mask" = Some mask ->
  inputs !! "segment_ids" = Some segments ->
  inputs !! "labels" = Some (FloatTensor labels_f) ->
  num_mc_samples F = 1 ->
  eval_forward E F theta [ids; mask; segments] = Ok (logits, stddev) ->
  length logits = length labels_f ->
  (forall name,
     name ∈ map fst (test_metrics F (metric_suffix dataset_name)
                     ++ collab_metrics F (metric_suffix dataset_name))%list ->
     is_Some (ms !! name)) ->
  ms !! ("test/acc" ++ metric_suffix dataset_name) = Some m_acc ->
  exists ms',
    test_step_fn E F theta dataset_name inputs ms = Ok ms' /\
    ms' !! ("test/acc" ++ metric_suffix dataset_name)
    = Some {| kind := kind m_acc;
              history := history m_acc
                         ++ [ULabelsClasses
                               (greater_cast labels_f (ece_label_threshold F))
                               (map argmax
                                  (class_probs
                                     (reduce_mean_axis0 [map sigmoid logits])))] |}.
Proof.
  intros Hids Hmask Hseg Hlab Hmc Heval Hlen Hpresent Hacc.
  unfold test_step_fn.
  set (sfx := metric_suffix dataset_name) in *. clearbody sfx.
  rewrite (create_feature_and_label_ok inputs ids mask segments (FloatTensor labels_f))
    by assumption.
  cbn [mbind result_bind]. rewrite Hmc.
  change (range 1) with [0].
  rewrite (mapM_single _ 0 (logits, stddev)) by exact Heval.
  cbn [mbind result_bind fmap list_fmap fst snd stack forallb float_values].
  rewrite mc_negative_log_likelihood_single by exact Hlen.
  cbn [mbind result_bind map].
  assert (Hcollab : forall name,
             name ∈ map (fun fraction => "test_collab_acc/collab_acc_" ++ fraction ++ sfx)
                      (fractions F) ->
             is_Some (ms !! name)).
  { intros name Hin. apply Hpresent. rewrite map_app. apply elem_of_app. right.
    unfold collab_metrics. rewrite map_map. exact Hin. }
  assert (Htest : forall name,
             name ∈ map fst (test_metrics F sfx) -> is_Some (ms !! name)).
  { intros name Hin. apply Hpresent. rewrite map_app. apply elem_of_app. by left. }
  clear Hpresent.
  repeat match goal with
         | |- exists ms', mbind _ (update_state ?n ?u ?m) = Ok ms' /\ _ =>
             lazymatch n with
             | String.append "test/acc" _ => fail
             | _ =>
                 let mx := fresh "mx" in
                 let Hm := fresh "Hm" in
                 let ms2 := fresh "ms" in
                 let Ho := fresh "Ho" in
                 let Hp := fresh "Hp" in
                 destruct (Htest n) as [mx Hm];
                 [ simpl; repeat (first [by left | right]) |];
                 destruct (update_state_total n u m mx Hm) as (ms2 & -> & _ & Ho & Hp);
                 cbn [mbind result_bind];
                 assert (Hacc2 : ms2 !! ("test/acc" ++ sfx) = Some m_acc)
                   by (rewrite Ho; [exact Hacc | simpl; discriminate]);
                 assert (Htest2 : forall name,
                            name ∈ map fst (test_metrics F sfx) -> is_Some (ms2 !! name))
                   by (intros name Hin; apply Hp, Htest, Hin);
                 assert (Hcollab2 : forall name,
                            name ∈ map (fun fraction =>
                                          "test_collab_acc/collab_acc_" ++ fraction ++ sfx)
                                     (fractions F) ->
                            is_Some (ms2 !! name))
                   by (intros name Hin; apply Hp, Hcollab, Hin);
                 clear Hm Ho Hp Hacc Htest Hcollab;
                 rename Hacc2 into Hacc, Htest2 into Htest, Hcollab2 into Hcollab;
                 clear m; rename ms2 into m
             end
         end.
  destruct (update_state_total _
              (ULabelsClasses (greater_cast labels_f (ece_label_threshold F))
                 (map argmax (class_probs (reduce_mean_axis0 [map sigmoid logits]))))
              ms m_acc Hacc)
    as (ms6 & -> & Hs & _ & Hp).
  cbn [mbind result_bind].
  destruct (update_all_ok
              (map (fun fraction => "test_collab_acc/collab_acc_" ++ fraction ++ sfx)
                 (fractions F))
              (ULabelsDist (greater_cast labels_f (ece_label_threshold F))
                 (class_probs (reduce_mean_axis0 [map sigmoid logits])))
              ms6)
    as [ms7 Hall].
  { intros name Hin. apply Hp, Hcollab, Hin. }
  exists ms7. split; [exact Hall|].
  rewrite (update_all_other _ _ ("test/acc" ++ sfx) (collab_names_other F sfx "test" "/" ("acc" ++ sfx) eq_refl eq_refl) _ _ Hall).
  exact Hs.
Qed.

(** ** End of data, mode by mode *)

(** C3.  Take a dataset that serves exactly [n] steps and ask for [k] more.
    In prediction mode the extra iterations change nothing: the pass ends
    with what the [n] steps collected.  In training mode the evaluation pass
    and the training steps of an epoch have no handler: both end with
    [OutOfRangeError]. *)
Theorem end_of_data_by_mode (E : Env) (F : Flags) (theta : Params) (name : string)
  (n k : Z) (data : list batch) :
  0 <= n -> 0 < k ->
  (forall p,
     predict_loop E F theta name n data = Ok ([], p) ->
     predict_loop E F theta name (n + k) data = Ok ([], p)) /\
  (forall m m',
     for_each (range n) (fun _ s => test_step E F theta name s.1 s.2) (data, m)
     = Ok ([], m') ->
     eval_dataset E F theta name (n + k) data m = Raise OutOfRangeError) /\
  (forall st st',
     train_epoch E F n (data, st) = Ok ([], st') ->
     train_epoch E F (n + k) (data, st) = Raise OutOfRangeError).
Proof.
  intros Hn Hk. split; [| split].
  - intros p Hrun. apply predict_loop_extra_steps; [lia | lia | exact Hrun].
  - intros m m' Hrun. eapply eval_dataset_end_of_data; eassumption.
  - intros st st' Hrun. eapply train_epoch_end_of_data; eassumption.
Qed.

Lemma sample_batch_fields (label : R) :
  sample_batch label !! "input_ids" = Some (IntTensor [[101; 2023; 102]]) /\
  sample_batch label !! "input_mask" = Some (IntTensor [[1; 1; 1]]) /\
  sample_batch label !! "segment_ids" = Some (IntTensor [[0; 0; 0]]) /\
  sample_batch label !! "labels" = Some (FloatTensor [label]).
Proof. repeat split; reflexivity. Qed.

Lemma eval_forward_sample (replicas : Z) (dir : string) (F : Flags) (theta : Params)
  (features : list tensor) :
  (gp_mean_field_factor F < 0)%R ->
  exists stddev,
    eval_forward (sample_env replicas dir) F theta features = Ok ([2%R], stddev).
Proof.
  intros Hneg. unfold eval_forward. simpl.
  rewrite mean_field_logits_negative by exact Hneg. simpl. eauto.
Qed.

Lemma sample_metrics_present (F : Flags) (name : string) :
  fractions F = ["0.0"; "0.01"; "0.05"; "0.1"; "0.15"; "0.2"] ->
  name ∈ map fst (test_metrics F "" ++ collab_metrics F "")%list ->
  is_Some (sample_metrics F !! name).
Proof.
  intros Hfr Hin. unfold collab_metrics in Hin. rewrite Hfr in Hin. simpl in Hin.
  unfold sample_metrics, build_metrics, collab_metrics. rewrite Hfr.
  repeat (apply elem_of_cons in Hin as [->|Hin]; [vm_compute; eauto|]).
  by apply elem_of_nil in Hin.
Qed.

Lemma final_eval_step_ok (E : Env) (F : Flags) (theta : Params) (inputs : batch)
  (rest : list batch) (ids mask segments labels : tensor) (logits : list R) :
  inputs !! "input_ids" = Some ids ->
  inputs !! "input_mask" = Some mask ->
  inputs !! "segment_ids" = Some segments ->
  inputs !! "labels" = Some labels ->
  mean_field_logits
    (logits_and_covmat F (model E theta [ids; mask; segments] false)).1
    (logits_and_covmat F (model E theta [ids; mask; segments] false)).2
    (gp_mean_field_factor F) = Ok logits ->
  final_eval_step E F theta (inputs :: rest)
  = Ok (rest,
        (ids, logits, labels,
         foldl (copy_label (foldl (copy_label inputs) ∅ _IDENTITY_LABELS)) ∅
           _IDENTITY_LABELS)).
Proof.
  intros Hids Hmask Hseg Hlab Hcal. unfold final_eval_step.
  cbn [next mbind result_bind].
  rewrite (create_feature_and_label_ok inputs ids mask segments labels) by assumption.
  cbn [mbind result_bind].
  destruct (logits_and_covmat F (model E theta [ids; mask; segments] false))
    as [raw covmat].
  simpl in Hcal. rewrite Hcal. cbn [mbind result_bind].
  unfold getitem. rewrite Hids. reflexivity.
Qed.

Lemma predict_iteration_plain (E : Env) (F : Flags) (theta : Params) (name : string)
  (step : Z) (test_iterator rest : list batch) (p : predictions)
  (text labels : tensor) (logits : list R) (additional : gmap string tensor) :
  has_identity name = false ->
  final_eval_step E F theta test_iterator = Ok (rest, (text, logits, labels, additional)) ->
  predict_iteration E F theta name step (test_iterator, p)
  = Ok (rest,
        {| texts_all := texts_all p ++ [text];
           logits_all := logits_all p ++ [logits];
           labels_all := labels_all p ++ [labels];
           additional_labels_all_dict := additional_labels_all_dict p |}).
Proof.
  intros Hid Hstep. unfold predict_iteration. rewrite Hstep, Hid. reflexivity.
Qed.

(** One batch served, two steps asked for. *)
Lemma end_of_data_by_mode_witness :
  let E := sample_env 1 "/run" in
  let F := sample_flags (-1) 1 false None in
  let theta := sample_params 0 0 in
  (exists p,
     predict_loop E F theta "ind" 2 [sample_batch 1] = Ok ([], p) /\
     length (texts_all p) = 1%nat) /\
  eval_dataset E F theta "ind" 2 [sample_batch 1] (sample_metrics F)
  = Raise OutOfRangeError /\
  train_epoch E F 2 ([sample_batch 1], {| params := theta; metrics := sample_metrics F |})
  = Raise OutOfRangeError.
Proof.
  intros E F theta.
  destruct (end_of_data_by_mode E F theta "ind" 1 1 [sample_batch 1])
    as (Hpred & Heval & Htrain); [lia | lia |].
  destruct (sample_batch_fields 1) as (Hids & Hmask & Hseg & Hlab).
  assert (Hneg : (gp_mean_field_factor F < 0)%R) by (simpl; lra).
  split; [| split].
  - eexists. split.
    + apply Hpred. unfold predict_loop. change (range 1) with [0]. cbn [for_each].
      erewrite predict_iteration_plain; [reflexivity | reflexivity |].
      eapply final_eval_step_ok; try eassumption.
      apply mean_field_logits_negative, Hneg.
    + reflexivity.
  - destruct (eval_forward_sample 1 "/run" F theta
                [IntTensor [[101; 2023; 102]]; IntTensor [[1; 1; 1]];
                 IntTensor [[0; 0; 0]]] Hneg) as [stddev Hfwd].
    destruct (test_step_fn_ok E F theta "ind" (sample_batch 1) (sample_metrics F)
                _ _ _ [1%R] [2%R] stddev (new_metric Accuracy)
                Hids Hmask Hseg Hlab eq_refl Hfwd eq_refl
                (fun name => sample_metrics_present F name eq_refl) eq_refl)
      as (ms' & Hstep & _).
    apply (Heval (sample_metrics F) ms').
    change (range 1) with [0]. cbn [for_each]. unfold test_step.
    cbn [next mbind result_bind fst snd]. rewrite Hstep. reflexivity.
  - assert (Hloss : train_losses E F
                      [IntTensor [[101; 2023; 102]]; IntTensor [[1; 1; 1]];
                       IntTensor [[0; 0; 0]]]
                      (FloatTensor [1%R]) theta
                    = Ok (reduce_mean [sigmoid_cross_entropy 1 2],
                          (reduce_mean [sigmoid_cross_entropy 1 2]
                           + reduce_sum [0%R])%R))
      by reflexivity.
    eapply Htrain. unfold train_epoch.
    change (range 1) with [0]. cbn [for_each]. unfold train_step.
    cbn [next mbind result_bind fst snd].
    erewrite (train_step_fn_ok E F (sample_batch 1)
                {| params := theta; metrics := sample_metrics F |} _ _ _ [1%R] _ _
                (new_metric Accuracy) (new_metric (ExpectedCalibrationError 15))
                (new_metric Mean) (new_metric Mean)
                Hids Hmask Hseg Hlab Hloss eq_refl eq_refl eq_refl eq_refl).
    reflexivity.
Defined.

(** ** Metric objects across an epoch *)

Lemma train_step_fn_reset (E : Env) (F : Flags) (inputs : batch) (st st' : train_state) :
  train_step_fn E F inputs st = Ok st' ->
  reset_states <$> metrics st' = reset_states <$> metrics st.
Proof.
  unfold train_step_fn. intros Hrun.
  apply bind_ok in Hrun as ([[features labels] additional] & _ & Hrun). simpl in Hrun.
  apply bind_ok in Hrun as ([nll loss] & _ & Hrun). simpl in Hrun.
  apply bind_ok in Hrun as (labels_f & _ & Hrun).
  apply bind_ok in Hrun as (m1 & H1 & Hrun).
  apply bind_ok in Hrun as (m2 & H2 & Hrun).
  apply bind_ok in Hrun as (m3 & H3 & Hrun).
  apply bind_ok in Hrun as (m4 & H4 & Hrun).
  injection Hrun as <-. simpl.
  rewrite (update_state_reset _ _ _ _ H4), (update_state_reset _ _ _ _ H3),
    (update_state_reset _ _ _ _ H2). eapply update_state_reset, H1.
Qed.

Lemma test_step_fn_reset (E : Env) (F : Flags) (theta : Params) (name : string)
  (inputs : batch) (ms ms' : gmap string metric) :
  test_step_fn E F theta name inputs ms = Ok ms' ->
  reset_states <$> ms' = reset_states <$> ms.
Proof.
  unfold test_step_fn. intros Hrun.
  apply bind_ok in Hrun as ([[features labels] additional] & _ & Hrun). simpl in Hrun.
  apply bind_ok in Hrun as (samples & _ & Hrun).
  apply bind_ok in Hrun as (logits_list & _ & Hrun).
  apply bind_ok in Hrun as (stddev_list & _ & Hrun).
  apply bind_ok in Hrun as (labels_f & _ & Hrun).
  apply bind_ok in Hrun as (nll & _ & Hrun).
  apply bind_ok in Hrun as (m1 & H1 & Hrun).
  apply bind_ok in Hrun as (m2 & H2 & Hrun).
  apply bind_ok in Hrun as (m3 & H3 & Hrun).
  apply bind_ok in Hrun as (m4 & H4 & Hrun).
  apply bind_ok in Hrun as (m5 & H5 & Hrun).
  apply bind_ok in Hrun as (m6 & H6 & Hrun).
  apply bind_ok in Hrun as (m7 & H7 & Hrun).
  rewrite (update_all_reset _ _ _ _ Hrun).
  rewrite (update_state_reset _ _ _ _ H7), (update_state_reset _ _ _ _ H6),
    (update_state_reset _ _ _ _ H5), (update_state_reset _ _ _ _ H4),
    (update_state_reset _ _ _ _ H3), (update_state_reset _ _ _ _ H2).
  eapply update_state_reset, H1.
Qed.

Lemma train_epoch_reset (E : Env) (F : Flags) (steps_per_epoch : Z)
  (s s' : list batch * train_state) :
  train_epoch E F steps_per_epoch s = Ok s' ->
  reset_states <$> metrics s'.2 = reset_states <$> metrics s.2.
Proof.
  unfold train_epoch.
  apply (for_each_invariant
           (fun x : list batch * train_state =>
              reset_states <$> metrics x.2 = reset_states <$> metrics s.2)).
  - intros step x x' Hx Hstep. unfold train_step in Hstep.
    apply bind_ok in Hstep as ([inputs rest] & _ & Hstep). simpl in Hstep.
    apply bind_ok in Hstep as (st1 & H1 & Hret). injection Hret as <-. simpl.
    rewrite (train_step_fn_reset _ _ _ _ _ H1). exact Hx.
  - reflexivity.
Qed.

Lemma eval_dataset_reset (E : Env) (F : Flags) (theta : Params) (name : string)
  (steps : Z) (test_dataset : list batch) (ms ms' : gmap string metric) :
  eval_dataset E F theta name steps test_dataset ms = Ok ms' ->
  reset_states <$> ms' = reset_states <$> ms.
Proof.
  unfold eval_dataset. intros Hrun.
  apply bind_ok in Hrun as (s & Hloop & Hret). injection Hret as <-.
  revert Hloop.
  apply (for_each_invariant
           (fun x : list batch * gmap string metric =>
              reset_states <$> x.2 = reset_states <$> ms)).
  - intros step x x' Hx Hstep. unfold test_step in Hstep.
    apply bind_ok in Hstep as ([inputs rest] & _ & Hstep). simpl in Hstep.
    apply bind_ok in Hstep as (m1 & H1 & Hret). injection Hret as <-. simpl.
    rewrite (test_step_fn_reset _ _ _ _ _ _ _ H1). exact Hx.
  - reflexivity.
Qed.

Lemma evaluate_and_summarize_inv (E : Env) (F : Flags) (test_sets : list test_set)
  (epoch : Z) (theta : Params) (ms ms' : gmap string metric)
  (summaries summaries' : list (string * R * Z)) :
  evaluate_and_summarize E F test_sets epoch theta ms summaries = Ok (ms', summaries') ->
  reset_states <$> ms' = reset_states <$> ms /\
  summaries' = (summaries ++ write_summaries E ms' epoch)%list.
Proof.
  unfold evaluate_and_summarize. intros Hrun.
  apply bind_ok in Hrun as (m1 & Hloop & Hret). injection Hret as <- <-.
  split; [| reflexivity].
  revert Hloop.
  apply (for_each_invariant
           (fun x : gmap string metric => reset_states <$> x = reset_states <$> ms)).
  - intros ds x x' Hx Hstep. rewrite (eval_dataset_reset _ _ _ _ _ _ _ _ Hstep).
    exact Hx.
  - reflexivity.
Qed.

Lemma write_summaries_step (E : Env) (ms : gmap string metric) (epoch : Z)
  (entry : string * R * Z) :
  entry ∈ write_summaries E ms epoch -> entry.2 = epoch + 1.
Proof.
  unfold write_summaries. intros Hin.
  apply list_elem_of_In, in_map_iff in Hin as (nm & <- & _). reflexivity.
Qed.

Lemma write_summaries_names (E : Env) (ms : gmap string metric) (epoch : Z) (name : string) :
  (exists v, (name, v, epoch + 1) ∈ write_summaries E ms epoch) <-> is_Some (ms !! name).
Proof.
  unfold write_summaries. split.
  - intros [v Hin]. apply list_elem_of_In, in_map_iff in Hin as ([n m] & Heq & Hin).
    injection Heq as -> _. apply list_elem_of_In, elem_of_map_to_list in Hin. eauto.
  - intros [m Hm]. exists (metric_result E m).
    apply list_elem_of_In, in_map_iff. exists (name, m). split; [reflexivity|].
    apply list_elem_of_In, elem_of_map_to_list. exact Hm.
Qed.

Lemma py_mod_ok (a b r : Z) : py_mod a b = Ok r -> b <> 0 /\ r = a mod b.
Proof.
  unfold py_mod. destruct (b =? 0) eqn:Hb; [discriminate|].
  intros [= <-]. split; [lia | reflexivity].
Qed.

Lemma reset_states_history (ms : gmap string metric) (name : string) (m : metric) :
  (reset_states <$> ms) !! name = Some m -> history m = [].
Proof.
  rewrite lookup_fmap. destruct (ms !! name) as [m0|]; simpl; [|discriminate].
  intros [= <-]. reflexivity.
Qed.

(** What one pass through the body of the epoch loop does to the metric
    objects and to the summaries. *)
Lemma epoch_body_inv (E : Env) (F : Flags) (test_sets : list test_set)
  (steps_per_epoch epoch : Z) (rs rs' : run_state) :
  epoch_body E F test_sets steps_per_epoch epoch rs = Ok rs' ->
  metrics (rs_train rs') = reset_states <$> metrics (rs_train rs) /\
  evaluation_interval F <> 0 /\
  (epoch mod evaluation_interval F <> 0 -> rs_summaries rs' = rs_summaries rs) /\
  (epoch mod evaluation_interval F = 0 ->
   exists evaluated,
     reset_states <$> evaluated = reset_states <$> metrics (rs_train rs) /\
     rs_summaries rs' = (rs_summaries rs ++ write_summaries E evaluated epoch)%list).
Proof.
  unfold epoch_body. intros Hrun.
  apply bind_ok in Hrun as ([train_iterator st] & Htrain & Hrun). simpl in Hrun.
  apply bind_ok in Hrun as (r & Hmod & Hrun).
  apply py_mod_ok in Hmod as [Hne ->].
  apply bind_ok in Hrun as ([ms summaries] & Heval & Hrun). simpl in Hrun.
  injection Hrun as <-. simpl.
  apply train_epoch_reset in Htrain. simpl in Htrain.
  destruct (epoch mod evaluation_interval F =? 0) eqn:Hr.
  - apply evaluate_and_summarize_inv in Heval as [Hreset ->].
    apply Z.eqb_eq in Hr.
    split; [| split; [exact Hne | split]].
    + rewrite Hreset. exact Htrain.
    + intros Hnz. contradiction.
    + intros _. exists ms. split; [| reflexivity]. rewrite Hreset. exact Htrain.
  - injection Heval as <- <-. apply Z.eqb_neq in Hr.
    split; [exact Htrain | split; [exact Hne | split]].
    + intros _. reflexivity.
    + intros Hz. contradiction.
Qed.

Lemma for_each_invariant_in {A S : Type} (P : S -> Prop) (xs : list A)
  (body : A -> S -> result S) :
  (forall x s s', x ∈ xs -> P s -> body x s = Ok s' -> P s') ->
  forall s s', P s -> for_each xs body s = Ok s' -> P s'.
Proof.
  induction xs as [|x xs IH]; simpl; intros Hstep s s' Hs Hrun.
  - congruence.
  - apply bind_ok in Hrun as (s1 & H1 & H2).
    apply (IH (fun y t t' Hy => Hstep y t t' (proj2 (elem_of_cons xs y x) (or_intror Hy)))
              s1 s');
      [| exact H2].
    apply (Hstep x s s1); [by left | exact Hs | exact H1].
Qed.

Lemma range2_bounds (a b x : Z) : x ∈ range2 a b -> a <= x < b.
Proof.
  unfold range2. intros Hin.
  apply list_elem_of_In, in_map_iff in Hin as (i & <- & Hi).
  apply in_seq in Hi. lia.
Qed.

Lemma train_loop_summaries (E : Env) (F : Flags) (test_sets : list test_set)
  (steps_per_epoch initial_epoch : Z) (rs rs' : run_state) :
  train_loop E F test_sets steps_per_epoch initial_epoch rs = Ok rs' ->
  forall entry,
    entry ∈ rs_summaries rs' ->
    entry ∈ rs_summaries rs \/
    exists epoch,
      initial_epoch <= epoch < train_epochs F /\
      epoch mod evaluation_interval F = 0 /\
      entry.2 = epoch + 1.
Proof.
  unfold train_loop.
  apply (for_each_invariant_in
           (fun x : run_state =>
              forall entry,
                entry ∈ rs_summaries x ->
                entry ∈ rs_summaries rs \/
                exists epoch,
                  initial_epoch <= epoch < train_epochs F /\
                  epoch mod evaluation_interval F = 0 /\
                  entry.2 = epoch + 1)).
  - intros epoch x x' Hepoch Hx Hbody entry Hin.
    apply range2_bounds in Hepoch.
    apply epoch_body_inv in Hbody as (_ & _ & Hskip & Hwrite).
    destruct (decide (epoch mod evaluation_interval F = 0)) as [Hz|Hnz].
    + destruct (Hwrite Hz) as (evaluated & _ & Hsum). rewrite Hsum in Hin.
      apply elem_of_app in Hin as [Hold|Hnew]; [by apply Hx|].
      right. exists epoch. split; [exact Hepoch|]. split; [exact Hz|].
      eapply write_summaries_step, Hnew.
    + rewrite (Hskip Hnz) in Hin. by apply Hx.
  - intros entry Hin. by left.
Qed.

Lemma train_loop_ends_reset (E : Env) (F : Flags) (test_sets : list test_set)
  (steps_per_epoch initial_epoch : Z) (rs rs' : run_state) :
  initial_epoch < train_epochs F ->
  train_loop E F test_sets steps_per_epoch initial_epoch rs = Ok rs' ->
  forall name m, metrics (rs_train rs') !! name = Some m -> history m = [].
Proof.
  unfold train_loop, range2. intros Hlt Hrun.
  destruct (Z.to_nat (train_epochs F - initial_epoch)) as [|len] eqn:Hlen; [lia|].
  simpl in Hrun. apply bind_ok in Hrun as (rs1 & Hfirst & Hrest).
  revert Hrest.
  apply (for_each_invariant
           (fun x : run_state =>
              forall name m, metrics (rs_train x) !! name = Some m -> history m = [])).
  - intros epoch x x' _ Hbody name m Hm.
    apply epoch_body_inv in Hbody as (Hreset & _). rewrite Hreset in Hm.
    eapply reset_states_history, Hm.
  - intros name m Hm.
    apply epoch_body_inv in Hfirst as (Hreset & _). rewrite Hreset in Hm.
    eapply reset_states_history, Hm.
Qed.

(** C10.  Every pass through the body of the epoch loop leaves every metric
    object reset, whether or not the epoch evaluates; summaries are written
    only when [epoch % evaluation_interval == 0], one scalar per metric, at
    step [epoch + 1]; on the other epochs the summaries stay as they were and
    the metric objects end as the reset of what the epoch started with, so
    what the epoch accumulated is dropped unwritten.  Over the whole loop,
    every summary written has the step [epoch + 1] of an epoch of the run
    with [epoch % evaluation_interval == 0]. *)
Theorem metrics_reset_every_epoch (E : Env) (F : Flags) (test_sets : list test_set)
  (steps_per_epoch : Z) :
  (forall epoch rs rs',
     epoch_body E F test_sets steps_per_epoch epoch rs = Ok rs' ->
     (forall name m, metrics (rs_train rs') !! name = Some m -> history m = []) /\
     metrics (rs_train rs') = reset_states <$> metrics (rs_train rs) /\
     (epoch mod evaluation_interval F <> 0 -> rs_summaries rs' = rs_summaries rs) /\
     (epoch mod evaluation_interval F = 0 ->
      exists evaluated,
        reset_states <$> evaluated = reset_states <$> metrics (rs_train rs) /\
        rs_summaries rs' = (rs_summaries rs ++ write_summaries E evaluated epoch)%list /\
        (forall entry, entry ∈ write_summaries E evaluated epoch -> entry.2 = epoch + 1) /\
        (forall name,
           (exists v, (name, v, epoch + 1) ∈ write_summaries E evaluated epoch) <->
           is_Some (metrics (rs_train rs) !! name)))) /\
  (forall initial_epoch rs rs',
     train_loop E F test_sets steps_per_epoch initial_epoch rs = Ok rs' ->
     (forall entry,
        entry ∈ rs_summaries rs' ->
        entry ∈ rs_summaries rs \/
        exists epoch,
          initial_epoch <= epoch < train_epochs F /\
          epoch mod evaluation_interval F = 0 /\
          entry.2 = epoch + 1) /\
     (initial_epoch < train_epochs F ->
      forall name m, metrics (rs_train rs') !! name = Some m -> history m = [])).
Proof.
  split.
  - intros epoch rs rs' Hbody.
    apply epoch_body_inv in Hbody as (Hreset & _ & Hskip & Hwrite).
    split; [| split; [exact Hreset | split; [exact Hskip|]]].
    + intros name m Hm. rewrite Hreset in Hm. eapply reset_states_history, Hm.
    + intros Hz. destruct (Hwrite Hz) as (evaluated & Hsame & Hsum).
      exists evaluated. split; [exact Hsame|]. split; [exact Hsum|]. split.
      * intros entry. apply write_summaries_step.
      * intros name. rewrite write_summaries_names.
        assert (Hl : (reset_states <$> evaluated) !! name
                     = (reset_states <$> metrics (rs_train rs)) !! name)
          by (rewrite Hsame; reflexivity).
        rewrite !lookup_fmap in Hl.
        destruct (evaluated !! name), (metrics (rs_train rs) !! name);
          simpl in Hl; try discriminate; split; intros [? ?]; eauto; discriminate.
  - intros initial_epoch rs rs' Hloop. split.
    + eapply train_loop_summaries, Hloop.
    + intros Hlt. eapply train_loop_ends_reset; eassumption.
Qed.

Lemma reset_same_present (ms ms' : gmap string metric) (name : string) :
  reset_states <$> ms' = reset_states <$> ms ->
  is_Some (ms !! name) -> is_Some (ms' !! name).
Proof.
  intros Hsame [m Hm].
  assert (Hl : (reset_states <$> ms') !! name = (reset_states <$> ms) !! name)
    by (rewrite Hsame; reflexivity).
  rewrite !lookup_fmap, Hm in Hl. destruct (ms' !! name); [eauto | discriminate].
Qed.

Lemma sample_train_epoch (F : Flags) (ms : gmap string metric) (label : R) :
  loss_type F = cross_entropy ->
  (forall name,
     name ∈ ["train/accuracy"; "train/ece"; "train/loss"; "train/negative_log_likelihood"] ->
     is_Some (ms !! name)) ->
  exists st1,
    train_epoch (sample_env 1 "/run") F 1
      ([sample_batch label], {| params := sample_params 0 0; metrics := ms |})
    = Ok ([], st1).
Proof.
  intros Hloss Hpresent.
  destruct (sample_batch_fields label) as (Hids & Hmask & Hseg & Hlab).
  destruct (Hpresent "train/accuracy") as [m1 H1]; [repeat (first [by left | right])|].
  destruct (Hpresent "train/ece") as [m2 H2]; [repeat (first [by left | right])|].
  destruct (Hpresent "train/loss") as [m3 H3]; [repeat (first [by left | right])|].
  destruct (Hpresent "train/negative_log_likelihood") as [m4 H4];
    [repeat (first [by left | right])|].
  assert (Hl : train_losses (sample_env 1 "/run") F
                 [IntTensor [[101; 2023; 102]]; IntTensor [[1; 1; 1]];
                  IntTensor [[0; 0; 0]]]
                 (FloatTensor [label]) (sample_params 0 0)
               = Ok (reduce_mean [sigmoid_cross_entropy label 2],
                     (reduce_mean [sigmoid_cross_entropy label 2] + reduce_sum [0%R])%R)).
  { unfold train_losses. rewrite Hloss. reflexivity. }
  eexists. unfold train_epoch. change (range 1) with [0]. cbn [for_each].
  unfold train_step. cbn [next mbind result_bind fst snd].
  erewrite (train_step_fn_ok (sample_env 1 "/run") F (sample_batch label)
              {| params := sample_params 0 0; metrics := ms |} _ _ _ [label] _ _
              m1 m2 m3 m4 Hids Hmask Hseg Hlab Hl H1 H2 H3 H4).
  reflexivity.
Qed.

(** An epoch that does not evaluate (epoch 1 under an evaluation interval
    of 2) and one that does (epoch 0), each with one training step. *)
Lemma metrics_reset_every_epoch_witness :
  let E := sample_env 1 "/run" in
  let F := sample_flags (-1) 2 false None in
  let test_sets := [ {| ts_name := "ind"; ts_batches := [sample_batch 1]; ts_steps := 1 |} ] in
  let rs := {| rs_train := {| params := sample_params 0 0; metrics := sample_metrics F |};
               rs_train_iterator := [sample_batch (8 / 10)];
               rs_summaries := [];
               rs_checkpoints := [] |} in
  (exists rs',
     epoch_body E F test_sets 1 1 rs = Ok rs' /\
     rs_summaries rs' = [] /\
     metrics (rs_train rs') = reset_states <$> sample_metrics F) /\
  (exists rs',
     epoch_body E F test_sets 1 0 rs = Ok rs' /\
     (exists v, ("train/accuracy", v, 1) ∈ rs_summaries rs') /\
     metrics (rs_train rs') = reset_states <$> sample_metrics F).
Proof.
  intros E F test_sets rs.
  destruct (metrics_reset_every_epoch E F test_sets 1) as [Hepoch _].
  assert (Htrain_names : forall name,
             name ∈ ["train/accuracy"; "train/ece"; "train/loss";
                     "train/negative_log_likelihood"] ->
             is_Some (sample_metrics F !! name)).
  { intros name Hin.
    repeat (apply elem_of_cons in Hin as [->|Hin]; [vm_compute; eauto|]).
    by apply elem_of_nil in Hin. }
  destruct (sample_train_epoch F (sample_metrics F) (8 / 10) eq_refl Htrain_names)
    as [st1 Htrain].
  split.
  - assert (Hrun : exists rs', epoch_body E F test_sets 1 1 rs = Ok rs').
    { unfold epoch_body, rs, E. cbn [rs_train_iterator rs_train]. rewrite Htrain.
      cbn [mbind result_bind]. eexists. reflexivity. }
    destruct Hrun as [rs' Hrun]. exists rs'. split; [exact Hrun|].
    destruct (Hepoch 1 rs rs' Hrun) as (_ & Hreset & Hskip & _).
    split; [| exact Hreset].
    rewrite Hskip; [reflexivity | discriminate].
  - assert (Hsame : reset_states <$> metrics st1 = reset_states <$> sample_metrics F)
      by (apply train_epoch_reset in Htrain; exact Htrain).
    destruct (sample_batch_fields 1) as (Hids & Hmask & Hseg & Hlab).
    assert (Hneg : (gp_mean_field_factor F < 0)%R) by (simpl; lra).
    destruct (eval_forward_sample 1 "/run" F (params st1)
                [IntTensor [[101; 2023; 102]]; IntTensor [[1; 1; 1]];
                 IntTensor [[0; 0; 0]]] Hneg) as [stddev Hfwd].
    destruct (reset_same_present _ (metrics st1) "test/acc" Hsame) as [m_acc Hacc];
      [vm_compute; eauto|].
    destruct (test_step_fn_ok E F (params st1) "ind" (sample_batch 1) (metrics st1)
                _ _ _ [1%R] [2%R] stddev m_acc
                Hids Hmask Hseg Hlab eq_refl Hfwd eq_refl)
      as (ms' & Hstep & _).
    { intros name Hin. apply (reset_same_present _ _ _ Hsame).
      apply (sample_metrics_present F name eq_refl Hin). }
    { exact Hacc. }
    assert (Hrun : exists rs', epoch_body E F test_sets 1 0 rs = Ok rs').
    { unfold epoch_body, rs. cbn [rs_train_iterator rs_train].
      fold E in Htrain. rewrite Htrain.
      cbn [mbind result_bind]. change (py_mod 0 (evaluation_interval F)) with (Ok 0).
      cbn [mbind result_bind]. change (0 =? 0) with true. cbv iota.
      unfold evaluate_and_summarize, test_sets. cbn [for_each].
      unfold eval_dataset. cbn [ts_name ts_steps ts_batches].
      change (range 1) with [0]. cbn [for_each]. unfold test_step.
      cbn [next mbind result_bind fst snd]. rewrite Hstep.
      cbn [mbind result_bind fst snd]. eexists. reflexivity. }
    destruct Hrun as [rs' Hrun]. exists rs'. split; [exact Hrun|].
    destruct (Hepoch 0 rs rs' Hrun) as (_ & Hreset & _ & Hwrite).
    split; [| exact Hreset].
    destruct (Hwrite eq_refl) as (evaluated & _ & Hsum & _ & Hnames).
    destruct (proj2 (Hnames "train/accuracy")) as [v Hv]; [vm_compute; eauto|].
    exists v. rewrite Hsum. apply elem_of_app. right. exact Hv.
Defined.

(** * Further properties of the script *)

(** ** Required fields of a batch *)

(** X1.  [create_feature_and_label] returns exactly when the batch has the
    four required fields; otherwise it raises [KeyError] for the first one
    missing in the order [input_ids], [input_mask], [segment_ids],
    [labels]. *)
Theorem create_feature_and_label_key_errors {V : Type} (inputs : gmap string V) :
  ((exists r, create_feature_and_label inputs = Ok r) <->
   forall k, k ∈ ["input_ids"; "input_mask"; "segment_ids"; "labels"] ->
             is_Some (inputs !! k)) /\
  (forall (before : list string) (k : string) (after : list string),
     ["input_ids"; "input_mask"; "segment_ids"; "labels"] = (before ++ k :: after)%list ->
     (forall k', k' ∈ before -> is_Some (inputs !! k')) ->
     inputs !! k = None ->
     create_feature_and_label inputs = Raise (KeyError k)).
Proof.
  split; [split|].
  - intros [r Hr] k Hin. unfold create_feature_and_label, getitem in Hr.
    destruct (inputs !! "input_ids") eqn:H1; [|discriminate].
    destruct (inputs !! "input_mask") eqn:H2; [|discriminate].
    destruct (inputs !! "segment_ids") eqn:H3; [|discriminate].
    destruct (inputs !! "labels") eqn:H4; [|discriminate].
    repeat (apply elem_of_cons in Hin as [->|Hin]; [eauto|]).
    by apply elem_of_nil in Hin.
  - intros Hall.
    destruct (Hall "input_ids") as [v1 H1]; [by left|].
    destruct (Hall "input_mask") as [v2 H2]; [right; by left|].
    destruct (Hall "segment_ids") as [v3 H3]; [right; right; by left|].
    destruct (Hall "labels") as [v4 H4]; [right; right; right; by left|].
    eexists. by apply create_feature_and_label_ok.
  - intros before k after Hsplit Hbefore Hk.
    unfold create_feature_and_label, getitem.
    destruct before as [|b1 [|b2 [|b3 [|b4 rest]]]]; simpl in Hsplit;
      injection Hsplit as ?; subst.
    + rewrite Hk. reflexivity.
    + destruct (Hbefore "input_ids") as [v1 ->]; [by left|]. simpl.
      rewrite Hk. reflexivity.
    + destruct (Hbefore "input_ids") as [v1 ->]; [by left|].
      destruct (Hbefore "input_mask") as [v2 ->]; [right; by left|]. simpl.
      rewrite Hk. reflexivity.
    + destruct (Hbefore "input_ids") as [v1 ->]; [by left|].
      destruct (Hbefore "input_mask") as [v2 ->]; [right; by left|].
      destruct (Hbefore "segment_ids") as [v3 ->]; [right; right; by left|]. simpl.
      rewrite Hk. reflexivity.
    + destruct rest; discriminate.
Qed.

Lemma create_feature_and_label_key_errors_witness :
  create_feature_and_label (delete "segment_ids" (sample_batch 1))
  = Raise (KeyError "segment_ids").
Proof.
  refine (proj2 (create_feature_and_label_key_errors
                   (delete "segment_ids" (sample_batch 1)))
                ["input_ids"; "input_mask"] "segment_ids" ["labels"]
                eq_refl _ eq_refl).
  intros k' Hin.
  repeat (apply elem_of_cons in Hin as [->|Hin]; [vm_compute; eauto|]).
  by apply elem_of_nil in Hin.
Defined.

(** ** Resolved directories *)

Lemma append_nonempty (a : string) (c : ascii) (b : string) :
  truthy (Some (a ++ String c b)) = true.
Proof. destruct a; reflexivity. Qed.

Lemma path_join_nonempty (d : string) (c : ascii) (name : string) :
  truthy (Some (path_join d (String c name))) = true.
Proof.
  unfold path_join.
  destruct (startswith_sep (String c name)); [reflexivity|].
  destruct (String.eqb d "" || endswith_sep d).
  - apply append_nonempty.
  - change (d ++ "/" ++ String c name) with (d ++ String "/" (String c name)).
    apply append_nonempty.
Qed.

Lemma endswith_sep_slash (d : string) : endswith_sep (d ++ "/") = true.
Proof.
  induction d as [|c d IH]; [reflexivity|].
  simpl. destruct (d ++ "/") eqn:Hd; [destruct d; discriminate | exact IH].
Qed.

Lemma append_assoc_slash (d name : string) : (d ++ "/") ++ name = d ++ "/" ++ name.
Proof.
  induction d as [|c d IH]; [reflexivity|].
  change (String c ((d ++ "/") ++ name) = String c (d ++ "/" ++ name)).
  by rewrite IH.
Qed.

Lemma path_join_trailing_slash (d : string) (c : ascii) (name : string) :
  d <> "" -> endswith_sep d = false -> Ascii.eqb c "/" = false ->
  path_join (d ++ "/") (String c name) = path_join d (String c name).
Proof.
  intros Hd Hsep Hc. rewrite (path_join_relative d c name Hd Hsep Hc).
  unfold path_join. simpl startswith_sep. rewrite Hc, endswith_sep_slash, orb_true_r.
  apply append_assoc_slash.
Qed.

(** X2.  Whatever [resolve_bert_ckpt_and_config_dir] returns, both
    directories are non-empty strings; and a [bert_dir] written with a
    trailing slash resolves to the same two paths as without it. *)
Theorem resolve_bert_dirs_nonempty (bert_dir bert_config_dir bert_ckpt_dir : option string) :
  (forall config ckpt,
     resolve_bert_ckpt_and_config_dir bert_dir bert_config_dir bert_ckpt_dir
     = Ok (config, ckpt) ->
     truthy config = true /\ truthy ckpt = true) /\
  (forall d,
     bert_dir = Some d -> d <> "" -> endswith_sep d = false ->
     resolve_bert_ckpt_and_config_dir (Some (d ++ "/")) bert_config_dir bert_ckpt_dir
     = resolve_bert_ckpt_and_config_dir (Some d) bert_config_dir bert_ckpt_dir).
Proof.
  split.
  - unfold resolve_bert_ckpt_and_config_dir. intros config ckpt Hrun.
    destruct (truthy bert_ckpt_dir) eqn:Hck, (truthy bert_config_dir) eqn:Hcfg;
      simpl in Hrun;
      try (destruct (truthy bert_dir); simpl in Hrun; [|discriminate]);
      injection Hrun as <- <-; auto using path_join_nonempty.
  - intros d -> Hd Hsep. unfold resolve_bert_ckpt_and_config_dir.
    assert (H1 : truthy (Some d) = true) by (destruct d; [congruence | reflexivity]).
    assert (H2 : truthy (Some (d ++ "/")) = true) by apply append_nonempty.
    rewrite H1, H2. simpl default.
    rewrite !path_join_trailing_slash by (assumption || reflexivity).
    reflexivity.
Qed.

Lemma resolve_bert_dirs_nonempty_witness :
  resolve_bert_ckpt_and_config_dir (Some "/bert/") None None
  = Ok (Some "/bert/bert_config.json", Some "/bert/bert_model.ckpt").
Proof.
  change "/bert/" with ("/bert" ++ "/").
  rewrite (proj2 (resolve_bert_dirs_nonempty (Some "/bert") None None) "/bert" eq_refl);
    [reflexivity | discriminate | reflexivity].
Defined.

(** ** The metrics dict built by [main] *)








(** ** Which metric objects a step touches *)

Lemma update_state_other (name other : string) (u : update) (ms ms' : gmap string metric) :
  update_state name u ms = Ok ms' -> other <> name -> ms' !! other = ms !! other.
Proof.
  intros (m & _ & ->)%update_state_inv Hne. apply lookup_insert_ne. congruence.
Qed.

Lemma train_step_fn_frame (E : Env) (F : Flags) (inputs : batch) (st st' : train_state)
  (name : string) :
  train_step_fn E F inputs st = Ok st' ->
  name ∉ train_step_names ->
  metrics st' !! name = metrics st !! name.
Proof.
  unfold train_step_fn. intros Hrun Hnot.
  apply bind_ok in Hrun as ([[features labels] additional] & _ & Hrun). simpl in Hrun.
  apply bind_ok in Hrun as ([nll loss] & _ & Hrun). simpl in Hrun.
  apply bind_ok in Hrun as (labels_f & _ & Hrun).
  apply bind_ok in Hrun as (m1 & H1 & Hrun).
  apply bind_ok in Hrun as (m2 & H2 & Hrun).
  apply bind_ok in Hrun as (m3 & H3 & Hrun).
  apply bind_ok in Hrun as (m4 & H4 & Hrun).
  injection Hrun as <-. simpl. unfold train_step_names in Hnot.
  repeat (apply not_elem_of_cons in Hnot as [? Hnot]).
  rewrite (update_state_other _ _ _ _ _ H4), (update_state_other _ _ _ _ _ H3),
    (update_state_other _ _ _ _ _ H2), (update_state_other _ _ _ _ _ H1) by assumption.
  reflexivity.
Qed.

Lemma test_step_fn_frame (E : Env) (F : Flags) (theta : Params) (dataset_name : string)
  (inputs : batch) (ms ms' : gmap string metric) (name : string) :
  test_step_fn E F theta dataset_name inputs ms = Ok ms' ->
  name ∉ test_step_names F (metric_suffix dataset_name) ->
  ms' !! name = ms !! name.
Proof.
  unfold test_step_fn. intros Hrun Hnot.
  apply bind_ok in Hrun as ([[features labels] additional] & _ & Hrun). simpl in Hrun.
  apply bind_ok in Hrun as (samples & _ & Hrun).
  apply bind_ok in Hrun as (logits_list & _ & Hrun).
  apply bind_ok in Hrun as (stddev_list & _ & Hrun).
  apply bind_ok in Hrun as (labels_f & _ & Hrun).
  apply bind_ok in Hrun as (nll & _ & Hrun).
  apply bind_ok in Hrun as (m1 & H1 & Hrun).
  apply bind_ok in Hrun as (m2 & H2 & Hrun).
  apply bind_ok in Hrun as (m3 & H3 & Hrun).
  apply bind_ok in Hrun as (m4 & H4 & Hrun).
  apply bind_ok in Hrun as (m5 & H5 & Hrun).
  apply bind_ok in Hrun as (m6 & H6 & Hrun).
  apply bind_ok in Hrun as (m7 & H7 & Hrun).
  unfold test_step_names in Hnot. apply not_elem_of_app in Hnot as [Hnot Hcollab].
  repeat (apply not_elem_of_cons in Hnot as [? Hnot]).
  rewrite (update_all_other _ _ _ Hcollab _ _ Hrun).
  rewrite (update_state_other _ _ _ _ _ H7), (update_state_other _ _ _ _ _ H6),
    (update_state_other _ _ _ _ _ H5), (update_state_other _ _ _ _ _ H4),
    (update_state_other _ _ _ _ _ H3), (update_state_other _ _ _ _ _ H2),
    (update_state_other _ _ _ _ _ H1) by assumption.
  reflexivity.
Qed.

Lemma not_a_test_update (F : Flags) (sfx name : string) :
  name ∈ ["test/eval_time" ++ sfx; "train/accuracy"; "train/ece"; "train/loss";
          "train/negative_log_likelihood"] ->
  name ∉ test_step_names F sfx.
Proof.
  intros Hin Hbad. unfold test_step_names in Hbad.
  apply elem_of_app in Hbad as [Hbad|Hbad].
  - repeat (apply elem_of_cons in Hin as [->|Hin]);
      [ | | | | | by apply elem_of_nil in Hin];
      repeat (apply elem_of_cons in Hbad as [Hbad|Hbad]; [simpl in Hbad; discriminate|]);
      by apply elem_of_nil in Hbad.
  - apply list_elem_of_In, in_map_iff in Hbad as (fraction & Heq & _).
    repeat (apply elem_of_cons in Hin as [->|Hin]);
      [ | | | | | by apply elem_of_nil in Hin];
      simpl in Heq; discriminate.
Qed.

(** X4.  A training step that returns changes no metric object other than
    the four [train/...] ones; an evaluation step that returns changes none
    but the seven [test/...] and the [test_collab_acc/...] ones of its
    dataset.  So evaluation leaves the training metrics as they are, and the
    [test/eval_time] metric of every dataset is never updated, neither by a
    step nor by a whole evaluation pass. *)
Theorem steps_touch_only_their_metrics (E : Env) (F : Flags) :
  (forall inputs st st' name,
     train_step_fn E F inputs st = Ok st' ->
     name ∉ train_step_names ->
     metrics st' !! name = metrics st !! name) /\
  (forall theta dataset_name inputs ms ms' name,
     test_step_fn E F theta dataset_name inputs ms = Ok ms' ->
     name ∉ test_step_names F (metric_suffix dataset_name) ->
     ms' !! name = ms !! name) /\
  (forall theta dataset_name steps test_dataset ms ms' name,
     eval_dataset E F theta dataset_name steps test_dataset ms = Ok ms' ->
     name ∈ ["test/eval_time" ++ metric_suffix dataset_name; "train/accuracy";
             "train/ece"; "train/loss"; "train/negative_log_likelihood"] ->
     ms' !! name = ms !! name) /\
  (forall inputs st st' sfx,
     train_step_fn E F inputs st = Ok st' ->
     metrics st' !! ("test/eval_time" ++ sfx) = metrics st !! ("test/eval_time" ++ sfx)).
Proof.
  split; [| split; [| split]].
  - intros inputs st st' name. apply train_step_fn_frame.
  - intros theta dataset_name inputs ms ms' name. apply test_step_fn_frame.
  - intros theta dataset_name steps test_dataset ms ms' name Hrun Hin.
    unfold eval_dataset in Hrun.
    apply bind_ok in Hrun as (s & Hloop & Hret). injection Hret as <-.
    revert Hloop.
    apply (for_each_invariant
             (fun x : list batch * gmap string metric => x.2 !! name = ms !! name)).
    + intros step x x' Hx Hstep. unfold test_step in Hstep.
      apply bind_ok in Hstep as ([b rest] & _ & Hstep). simpl in Hstep.
      apply bind_ok in Hstep as (m1 & H1 & Hret). injection Hret as <-. simpl.
      rewrite (test_step_fn_frame _ _ _ _ _ _ _ name H1); [exact Hx|].
      apply not_a_test_update, Hin.
    + reflexivity.
  - intros inputs st st' sfx Hrun. apply (train_step_fn_frame _ _ _ _ _ _ Hrun).
    intros Hbad. unfold train_step_names in Hbad.
    repeat (apply elem_of_cons in Hbad as [Hbad|Hbad]; [simpl in Hbad; discriminate|]).
    by apply elem_of_nil in Hbad.
Qed.

(** ** What a prediction pass collects *)






Lemma append_identity_labels_inv (step_dict : gmap string tensor) (names : list string) :
  NoDup names ->
  forall d d' : gmap string (list tensor),
    for_each names (append_identity_label step_dict) d = Ok d' ->
    (forall l, l ∈ names ->
               exists old v, d !! l = Some old /\ step_dict !! l = Some v /\
                             d' !! l = Some (old ++ [v])%list) /\
    (forall l, l ∉ names -> d' !! l = d !! l).
Proof.
  induction 1 as [|n names Hn Hnd IH]; simpl; intros d d' Hrun.
  - injection Hrun as <-. split; [intros l Hin; by apply elem_of_nil in Hin | auto].
  - apply bind_ok in Hrun as (d1 & H1 & Hrest).
    unfold append_identity_label, getitem in H1.
    destruct (d !! n) as [old|] eqn:Hold; [|discriminate].
    destruct (step_dict !! n) as [v|] eqn:Hv; [|discriminate].
    simpl in H1. injection H1 as <-.
    destruct (IH _ _ Hrest) as [Hin Hout]. split.
    + intros l Hl. apply elem_of_cons in Hl as [->|Hl].
      * exists old, v. split; [exact Hold|]. split; [exact Hv|].
        rewrite (Hout n Hn). apply lookup_insert_eq.
      * destruct (Hin l Hl) as (old' & v' & Ho & Hs & Hd).
        assert (Hne : n <> l) by (intros ->; contradiction).
        rewrite lookup_insert_ne in Ho by assumption. eauto.
    + intros l Hl. apply not_elem_of_cons in Hl as [Hne Hl].
      rewrite (Hout l Hl). apply lookup_insert_ne. congruence.
Qed.

Lemma identity_labels_nodup : NoDup _IDENTITY_LABELS.
Proof. apply (bool_decide_unpack (NoDup _IDENTITY_LABELS)). vm_compute. exact I. Qed.

Lemma empty_identity_columns (names : list string) (l : string) :
  forall d : gmap string (list tensor),
    l ∈ names \/ d !! l = Some [] ->
    foldl (fun d identity_label_name => <[identity_label_name := []]> d) d names !! l
    = Some [].
Proof.
  induction names as [|n names IH]; intros d [Hin|Hd]; cbn [foldl].
  - by apply elem_of_nil in Hin.
  - exact Hd.
  - apply IH. apply elem_of_cons in Hin as [->|Hin]; [right; apply lookup_insert_eq | by left].
  - apply IH. right. destruct (decide (n = l)) as [->|Hne];
      [apply lookup_insert_eq | by rewrite lookup_insert_ne].
Qed.




Lemma range_length (n : Z) : length (range n) = Z.to_nat n.
Proof. unfold range. by rewrite length_map, length_seq. Qed.

Lemma sample_prediction_pass (steps : Z) :
  0 < steps ->
  predict_loop (sample_env 1 "/run") (sample_flags (-1) 1 true (Some "/run"))
    (sample_params 0 0) "ind" steps [sample_batch 1]
  = Ok ([], {| texts_all := [IntTensor [[101; 2023; 102]]];
               logits_all := [[2%R]];
               labels_all := [FloatTensor [1%R]];
               additional_labels_all_dict := ∅ |}).
Proof.
  intros Hsteps. replace steps with (1 + (steps - 1)) by lia.
  apply predict_loop_extra_steps; [lia | lia |].
  destruct (sample_batch_fields 1) as (Hids & Hmask & Hseg & Hlab).
  unfold predict_loop. change (range 1) with [0]. cbn [for_each].
  erewrite predict_iteration_plain; [reflexivity | reflexivity |].
  eapply final_eval_step_ok; try eassumption.
  apply mean_field_logits_negative. simpl. lra.
Qed.



(** ** Identity columns in a prediction pass *)




(** ** Checkpoints and resumption *)

Lemma range2_empty (a b : Z) : b <= a -> range2 a b = [].
Proof. intros Hle. unfold range2. by replace (Z.to_nat (b - a)) with 0%nat by lia. Qed.

Lemma range2_cons (a b : Z) : a < b -> range2 a b = a :: range2 (a + 1) b.
Proof.
  intros Hlt. unfold range2.
  replace (Z.to_nat (b - a)) with (S (Z.to_nat (b - (a + 1)))) by lia.
  cbn [seq map]. f_equal; [lia|].
  rewrite <- seq_shift, map_map. apply map_ext. intros i. lia.
Qed.

(** A [for epoch in range(a, b)] loop carries an invariant indexed by the
    epoch about to run. *)
Lemma for_each_range2 {S : Type} (P : Z -> S -> Prop) (body : Z -> S -> result S)
  (b : Z) :
  forall (n : nat) (a : Z) (s s' : S),
    Z.to_nat (b - a) = n ->
    (forall e t t', a <= e < b -> P e t -> body e t = Ok t' -> P (e + 1) t') ->
    P a s ->
    for_each (range2 a b) body s = Ok s' ->
    P (Z.max a b) s'.
Proof.
  induction n as [|n IH]; intros a s s' Hn Hstep Hs Hrun.
  - rewrite range2_empty in Hrun by lia. cbn [for_each] in Hrun.
    injection Hrun as <-. by replace (Z.max a b) with a by lia.
  - rewrite range2_cons in Hrun by lia. cbn [for_each] in Hrun.
    apply bind_ok in Hrun as (s1 & H1 & Hrun).
    replace (Z.max a b) with (Z.max (a + 1) b) by lia.
    apply (IH (a + 1) s1 s'); [lia | | | exact Hrun].
    + intros e t t' He. apply Hstep. lia.
    + apply (Hstep a s s1); [lia | exact Hs | exact H1].
Qed.

Lemma train_step_fn_iterations (E : Env) (F : Flags) (inputs : batch)
  (st st' : train_state) :
  (forall theta f, iterations (apply_gradients E theta f) = iterations theta + 1) ->
  train_step_fn E F inputs st = Ok st' ->
  iterations (params st') = iterations (params st) + 1.
Proof.
  unfold train_step_fn. intros Hopt Hrun.
  apply bind_ok in Hrun as ([[features labels] additional] & _ & Hrun). simpl in Hrun.
  apply bind_ok in Hrun as ([nll loss] & _ & Hrun). simpl in Hrun.
  apply bind_ok in Hrun as (labels_f & _ & Hrun).
  apply bind_ok in Hrun as (m1 & _ & Hrun).
  apply bind_ok in Hrun as (m2 & _ & Hrun).
  apply bind_ok in Hrun as (m3 & _ & Hrun).
  apply bind_ok in Hrun as (m4 & _ & Hrun).
  injection Hrun as <-. cbn [params]. apply Hopt.
Qed.

Lemma train_steps_iterations (E : Env) (F : Flags) (steps : list Z) :
  (forall theta f, iterations (apply_gradients E theta f) = iterations theta + 1) ->
  forall s s' : list batch * train_state,
    for_each steps (fun _ s => train_step E F s.1 s.2) s = Ok s' ->
    iterations (params s'.2) = iterations (params s.2) + Z.of_nat (length steps).
Proof.
  intros Hopt. induction steps as [|step steps IH]; intros s s' Hrun.
  - cbn [for_each] in Hrun. injection Hrun as <-. cbn [length]. lia.
  - cbn [for_each] in Hrun. apply bind_ok in Hrun as (s1 & H1 & Hrun).
    rewrite (IH _ _ Hrun). unfold train_step in H1.
    apply bind_ok in H1 as ([inputs it] & _ & H1). cbv beta iota in H1.
    apply bind_ok in H1 as (st1 & Hfn & H1). injection H1 as <-.
    cbn [snd length]. rewrite (train_step_fn_iterations _ _ _ _ _ Hopt Hfn). lia.
Qed.

Lemma train_epoch_iterations (E : Env) (F : Flags) (steps_per_epoch : Z)
  (s s' : list batch * train_state) :
  (forall theta f, iterations (apply_gradients E theta f) = iterations theta + 1) ->
  0 <= steps_per_epoch ->
  train_epoch E F steps_per_epoch s = Ok s' ->
  iterations (params s'.2) = iterations (params s.2) + steps_per_epoch.
Proof.
  intros Hopt Hsteps Hrun. unfold train_epoch in Hrun.
  rewrite (train_steps_iterations _ _ _ Hopt _ _ Hrun), range_length. lia.
Qed.

Lemma epoch_body_checkpoint (E : Env) (F : Flags) (test_sets : list test_set)
  (steps_per_epoch epoch : Z) (rs rs' : run_state) :
  epoch_body E F test_sets steps_per_epoch epoch rs = Ok rs' ->
  exists s,
    train_epoch E F steps_per_epoch (rs_train_iterator rs, rs_train rs) = Ok s /\
    params (rs_train rs') = params s.2 /\
    rs_checkpoints rs'
    = if (0 <? checkpoint_interval F) && ((epoch + 1) mod checkpoint_interval F =? 0)
      then (rs_checkpoints rs
            ++ [(path_join (output_dir F) "checkpoint", params s.2)])%list
      else rs_checkpoints rs.
Proof.
  unfold epoch_body. intros Hrun.
  apply bind_ok in Hrun as ([train_iterator st] & Htrain & Hrun). cbv beta iota in Hrun.
  apply bind_ok in Hrun as (r & _ & Hrun).
  apply bind_ok in Hrun as ([ms summaries] & _ & Hrun). cbv beta iota zeta in Hrun.
  injection Hrun as <-. exists (train_iterator, st). auto.
Qed.

(** The state of the epoch loop when [epoch] is about to run, for a loop
    that started at [initial_epoch] with the step counter at [i0]. *)
Lemma epoch_body_schedule (E : Env) (F : Flags) (test_sets : list test_set)
  (steps_per_epoch initial_epoch i0 : Z) :
  (forall theta f, iterations (apply_gradients E theta f) = iterations theta + 1) ->
  0 <= steps_per_epoch ->
  let P := fun (e : Z) (rs : run_state) =>
    iterations (params (rs_train rs)) = i0 + (e - initial_epoch) * steps_per_epoch /\
    (forall path theta,
       (path, theta) ∈ rs_checkpoints rs ->
       path = path_join (output_dir F) "checkpoint" /\
       0 < checkpoint_interval F /\
       exists epoch,
         initial_epoch <= epoch < e /\
         (epoch + 1) mod checkpoint_interval F = 0 /\
         iterations theta = i0 + (epoch + 1 - initial_epoch) * steps_per_epoch) /\
    (forall epoch,
       initial_epoch <= epoch < e ->
       0 < checkpoint_interval F ->
       (epoch + 1) mod checkpoint_interval F = 0 ->
       exists theta,
         (path_join (output_dir F) "checkpoint", theta) ∈ rs_checkpoints rs /\
         iterations theta = i0 + (epoch + 1 - initial_epoch) * steps_per_epoch) in
  forall e rs rs',
    initial_epoch <= e ->
    P e rs ->
    epoch_body E F test_sets steps_per_epoch e rs = Ok rs' ->
    P (e + 1) rs'.
Proof.
  intros Hopt Hsteps P e rs rs' He (Hit & Hsound & Hcomplete) Hrun.
  apply epoch_body_checkpoint in Hrun as (s & Htrain & Hparams & Hckpt).
  apply (train_epoch_iterations _ _ _ _ _ Hopt Hsteps) in Htrain. cbn [snd] in Htrain.
  assert (Hnow : iterations (params s.2)
                 = i0 + (e + 1 - initial_epoch) * steps_per_epoch)
    by (rewrite Htrain, Hit; lia).
  unfold P. rewrite Hparams, Hckpt. split; [exact Hnow|].
  destruct ((0 <? checkpoint_interval F) && ((e + 1) mod checkpoint_interval F =? 0))
    eqn:Hsave.
  - apply andb_true_iff in Hsave as [Hci Hmod].
    apply Z.ltb_lt in Hci. apply Z.eqb_eq in Hmod. split.
    + intros path theta Hin. apply elem_of_app in Hin as [Hin|Hin].
      * destruct (Hsound path theta Hin) as (Hpath & Hpos & epoch & Hrange & Hm & Hi).
        split; [exact Hpath|]. split; [exact Hpos|]. exists epoch.
        split; [lia|]. auto.
      * apply elem_of_cons in Hin as [Heq|Hin]; [|by apply elem_of_nil in Hin].
        injection Heq as -> ->. split; [reflexivity|]. split; [exact Hci|].
        exists e. split; [lia|]. auto.
    + intros epoch Hrange Hpos Hm.
      destruct (decide (epoch = e)) as [->|Hne].
      * exists (params s.2). split; [|exact Hnow].
        apply elem_of_app. right. by left.
      * destruct (Hcomplete epoch) as (theta & Hin & Hi); [lia | exact Hpos | exact Hm |].
        exists theta. split; [|exact Hi]. apply elem_of_app. by left.
  - split.
    + intros path theta Hin.
      destruct (Hsound path theta Hin) as (Hpath & Hpos & epoch & Hrange & Hm & Hi).
      split; [exact Hpath|]. split; [exact Hpos|]. exists epoch.
      split; [lia|]. auto.
    + intros epoch Hrange Hpos Hm.
      destruct (decide (epoch = e)) as [->|Hne].
      * apply andb_false_iff in Hsave as [Hci|Hmod];
          [apply Z.ltb_ge in Hci; lia | apply Z.eqb_neq in Hmod; contradiction].
      * apply Hcomplete; [lia | exact Hpos | exact Hm].
Qed.

Lemma sample_train_epoch_from (F : Flags) (ms : gmap string metric) (label : R)
  (theta : Params) :
  loss_type F = cross_entropy ->
  (forall name, name ∈ train_step_names -> is_Some (ms !! name)) ->
  exists st1,
    train_epoch (sample_env 1 "/run") F 1
      ([sample_batch label], {| params := theta; metrics := ms |})
    = Ok ([], st1).
Proof.
  intros Hloss Hpresent.
  destruct (sample_batch_fields label) as (Hids & Hmask & Hseg & Hlab).
  destruct (Hpresent "train/accuracy") as [m1 H1]; [repeat (first [by left | right])|].
  destruct (Hpresent "train/ece") as [m2 H2]; [repeat (first [by left | right])|].
  destruct (Hpresent "train/loss") as [m3 H3]; [repeat (first [by left | right])|].
  destruct (Hpresent "train/negative_log_likelihood") as [m4 H4];
    [repeat (first [by left | right])|].
  assert (Hl : train_losses (sample_env 1 "/run") F
                 [IntTensor [[101; 2023; 102]]; IntTensor [[1; 1; 1]];
                  IntTensor [[0; 0; 0]]]
                 (FloatTensor [label]) theta
               = Ok (reduce_mean [sigmoid_cross_entropy label 2],
                     (reduce_mean [sigmoid_cross_entropy label 2]
                      + reduce_sum (head theta))%R)).
  { unfold train_losses. rewrite Hloss. reflexivity. }
  eexists. unfold train_epoch. change (range 1) with [0]. cbn [for_each].
  unfold train_step. cbn [next mbind result_bind fst snd].
  erewrite (train_step_fn_ok (sample_env 1 "/run") F (sample_batch label)
              {| params := theta; metrics := ms |} _ _ _ [label] _ _
              m1 m2 m3 m4 Hids Hmask Hseg Hlab Hl H1 H2 H3 H4).
  reflexivity.
Qed.

(** X7.  With an optimizer that counts one iteration per applied gradient
    and a run that starts at the epoch its step counter stands for, the
    epoch loop writes a checkpoint exactly at the end of every epoch whose
    number plus one is a multiple of a positive [checkpoint_interval], always
    under [output_dir/checkpoint], and none when the interval is not
    positive.  The checkpoint written at the end of [epoch] holds a step
    counter that stands for [epoch + 1]: a later run that finds it as the
    latest checkpoint of the directory restores it and starts at
    [epoch + 1]. *)
Theorem checkpoints_resume_at_next_epoch (E : Env) (F : Flags)
  (test_sets : list test_set) (steps_per_epoch initial_epoch : Z)
  (rs rs' : run_state) :
  (forall theta f, iterations (apply_gradients E theta f) = iterations theta + 1) ->
  0 < steps_per_epoch ->
  iterations (params (rs_train rs)) / steps_per_epoch = initial_epoch ->
  rs_checkpoints rs = [] ->
  train_loop E F test_sets steps_per_epoch initial_epoch rs = Ok rs' ->
  (forall path theta,
     (path, theta) ∈ rs_checkpoints rs' ->
     path = path_join (output_dir F) "checkpoint" /\
     0 < checkpoint_interval F /\
     exists epoch,
       initial_epoch <= epoch < train_epochs F /\
       (epoch + 1) mod checkpoint_interval F = 0 /\
       forall (E' : Env) (name : string) (bert_ckpt : option string) (theta0 : Params),
         prediction_mode F = false ->
         latest_checkpoint E' (output_dir F) = Some name ->
         name <> "" ->
         read_checkpoint E' name = theta ->
         restore_or_load E' F bert_ckpt steps_per_epoch theta0 = Ok (theta, epoch + 1)) /\
  (forall epoch,
     initial_epoch <= epoch < train_epochs F ->
     0 < checkpoint_interval F ->
     (epoch + 1) mod checkpoint_interval F = 0 ->
     exists theta,
       (path_join (output_dir F) "checkpoint", theta) ∈ rs_checkpoints rs' /\
       iterations theta / steps_per_epoch = epoch + 1).
Proof.
  intros Hopt Hsteps Hstart Hnone Hrun. unfold train_loop in Hrun.
  pose proof (epoch_body_schedule E F test_sets steps_per_epoch initial_epoch
                (iterations (params (rs_train rs))) Hopt ltac:(lia)) as Hstep.
  cbv zeta in Hstep.
  apply (for_each_range2 _ _ (train_epochs F)
           (Z.to_nat (train_epochs F - initial_epoch)) initial_epoch rs rs' eq_refl
           (fun e t t' He => Hstep e t t' (proj1 He))) in Hrun.
  - destruct Hrun as (_ & Hsound & Hcomplete).
    assert (Hdiv : forall e,
               (iterations (params (rs_train rs))
                + (e + 1 - initial_epoch) * steps_per_epoch) / steps_per_epoch = e + 1).
    { intros e. rewrite Z.div_add by lia. lia. }
    split.
    + intros path theta Hin.
      destruct (Hsound path theta Hin) as (Hpath & Hpos & epoch & Hrange & Hm & Hi).
      split; [exact Hpath|]. split; [exact Hpos|]. exists epoch.
      split; [lia|]. split; [exact Hm|].
      intros E' name bert_ckpt theta0 Hmode Hlatest Hname Hread.
      destruct name as [|c name]; [congruence|]. subst theta.
      unfold restore_or_load, find_latest_checkpoint. rewrite Hmode, Hlatest.
      simpl. unfold restore. rewrite Hi, Hdiv. reflexivity.
    + intros epoch Hrange Hpos Hm.
      destruct (Hcomplete epoch) as (theta & Hin & Hi); [lia | exact Hpos | exact Hm |].
      exists theta. split; [exact Hin|]. rewrite Hi. apply Hdiv.
  - split; [lia|]. rewrite Hnone. split.
    + intros path theta Hin. by apply elem_of_nil in Hin.
    + intros epoch Hrange. lia.
Qed.

(** The last epoch of a three-epoch run with [checkpoint_interval = 3],
    resumed at epoch 2 with one step per epoch. *)
Lemma checkpoints_resume_at_next_epoch_witness :
  let E := sample_env 1 "/run" in
  let F := sample_flags (-1) 4 false None in
  let rs := {| rs_train := {| params := sample_params 0 2; metrics := sample_metrics F |};
               rs_train_iterator := [sample_batch 1];
               rs_summaries := [];
               rs_checkpoints := [] |} in
  exists rs',
    train_loop E F [] 1 2 rs = Ok rs' /\
    exists theta,
      ("/tmp/toxic_comments/checkpoint", theta) ∈ rs_checkpoints rs' /\
      iterations theta / 1 = 3.
Proof.
  intros E F rs.
  assert (Htrain_names : forall name,
             name ∈ train_step_names -> is_Some (sample_metrics F !! name)).
  { intros name Hin. unfold train_step_names in Hin.
    repeat (apply elem_of_cons in Hin as [->|Hin]; [vm_compute; eauto|]).
    by apply elem_of_nil in Hin. }
  destruct (sample_train_epoch_from F (sample_metrics F) 1 (sample_params 0 2)
              eq_refl Htrain_names) as [st1 Htrain].
  assert (Hrun : exists rs', train_loop E F [] 1 2 rs = Ok rs').
  { unfold train_loop. change (range2 2 (train_epochs F)) with [2]. cbn [for_each].
    unfold epoch_body, rs, E. cbn [rs_train_iterator rs_train]. rewrite Htrain.
    cbn [mbind result_bind]. eexists. reflexivity. }
  destruct Hrun as [rs' Hrun]. exists rs'. split; [exact Hrun|].
  refine (proj2 (checkpoints_resume_at_next_epoch E F [] 1 2 rs rs' _ _ _ _ Hrun)
            2 _ _ _).
  - intros theta f. reflexivity.
  - lia.
  - reflexivity.
  - reflexivity.
  - simpl. lia.
  - simpl. lia.
  - reflexivity.
Defined.

(** ** Intervals of zero *)

(** X8.  The two interval flags treat zero differently.  The evaluation test
    [epoch % evaluation_interval] is unguarded: with an interval of zero the
    first epoch of a run ends with [ZeroDivisionError] once its training
    steps are through.  The checkpoint test is guarded by
    [checkpoint_interval > 0]: with an interval of zero or below, an epoch
    that does not evaluate completes and writes no checkpoint. *)
Theorem zero_interval_behaviour (E : Env) (F : Flags) (test_sets : list test_set)
  (steps_per_epoch initial_epoch : Z) (rs : run_state) (s : list batch * train_state) :
  train_epoch E F steps_per_epoch (rs_train_iterator rs, rs_train rs) = Ok s ->
  initial_epoch < train_epochs F ->
  (evaluation_interval F = 0 ->
   train_loop E F test_sets steps_per_epoch initial_epoch rs = Raise ZeroDivisionError) /\
  (checkpoint_interval F <= 0 ->
   evaluation_interval F <> 0 ->
   initial_epoch mod evaluation_interval F <> 0 ->
   exists rs',
     epoch_body E F test_sets steps_per_epoch initial_epoch rs = Ok rs' /\
     rs_checkpoints rs' = rs_checkpoints rs /\
     rs_summaries rs' = rs_summaries rs).
Proof.
  intros Htrain Hepochs. split.
  - intros Hzero. unfold train_loop. rewrite range2_cons by exact Hepochs.
    cbn [for_each]. unfold epoch_body. rewrite Htrain. destruct s as [it st].
    cbn [mbind result_bind]. unfold py_mod. rewrite Hzero. reflexivity.
  - intros Hci Hne Hmod. unfold epoch_body. rewrite Htrain. destruct s as [it st].
    cbn [mbind result_bind]. unfold py_mod.
    destruct (evaluation_interval F =? 0) eqn:Hz; [apply Z.eqb_eq in Hz; contradiction|].
    cbn [mbind result_bind].
    destruct (initial_epoch mod evaluation_interval F =? 0) eqn:Hr;
      [apply Z.eqb_eq in Hr; contradiction|].
    cbn [mbind result_bind].
    replace (0 <? checkpoint_interval F) with false by (symmetry; apply Z.ltb_ge; lia).
    cbn [andb]. eexists. split; [reflexivity|]. split; reflexivity.
Qed.

(** An evaluation interval of zero stops the run after the training steps
    of its first epoch. *)
Lemma zero_interval_behaviour_witness :
  train_loop (sample_env 1 "/run") (sample_flags (-1) 0 false None) [] 1 2
    {| rs_train := {| params := sample_params 0 2;
                      metrics := sample_metrics (sample_flags (-1) 0 false None) |};
       rs_train_iterator := [sample_batch 1];
       rs_summaries := [];
       rs_checkpoints := [] |}
  = Raise ZeroDivisionError.
Proof.
  assert (Htrain_names : forall name,
             name ∈ train_step_names ->
             is_Some (sample_metrics (sample_flags (-1) 0 false None) !! name)).
  { intros name Hin. unfold train_step_names in Hin.
    repeat (apply elem_of_cons in Hin as [->|Hin]; [vm_compute; eauto|]).
    by apply elem_of_nil in Hin. }
  destruct (sample_train_epoch_from (sample_flags (-1) 0 false None)
              (sample_metrics (sample_flags (-1) 0 false None)) 1 (sample_params 0 2)
              eq_refl Htrain_names) as [st1 Htrain].
  refine (proj1 (zero_interval_behaviour (sample_env 1 "/run")
                   (sample_flags (-1) 0 false None) [] 1 2
                   {| rs_train :=
                        {| params := sample_params 0 2;
                           metrics := sample_metrics (sample_flags (-1) 0 false None) |};
                      rs_train_iterator := [sample_batch 1];
                      rs_summaries := [];
                      rs_checkpoints := [] |}
                   ([], st1) Htrain _) eq_refl).
  simpl. lia.
Defined.

(** ** The predicted class *)

Lemma sigmoid_above_half (x : R) : (1 / 2 < sigmoid x)%R <-> (0 < x)%R.
Proof.
  unfold sigmoid.
  assert (Hpos : (0 < exp (Ropp x))%R) by apply exp_pos.
  split.
  - intros Hhalf.
    assert (Hlt : (exp (Ropp x) < 1)%R).
    { destruct (Rlt_dec (exp (Ropp x)) 1) as [Hlt|Hge]; [exact Hlt|].
      exfalso. assert (Hle : (/ (1 + exp (Ropp x)) <= / 2)%R)
        by (apply Rinv_le_contravar; lra).
      lra. }
    rewrite <- exp_0 in Hlt. apply exp_lt_inv in Hlt. lra.
  - intros Hx.
    assert (Hlt : (exp (Ropp x) < 1)%R).
    { rewrite <- exp_0. apply exp_increasing. lra. }
    assert (Hinv : (/ 2 < / (1 + exp (Ropp x)))%R)
      by (apply Rinv_lt_contravar; nra).
    lra.
Qed.

Lemma argmax_pair (p : R) :
  argmax [(1 - p)%R; p] = if Rlt_dec (1 / 2) p then 1 else 0.
Proof.
  unfold argmax, argmax_from.
  destruct (Rlt_dec (1 - p) p) as [Hlt|Hge], (Rlt_dec (1 / 2) p) as [Hp|Hp];
    try reflexivity; exfalso; lra.
Qed.

(** X9.  The class the metrics are fed: [argmax] over [(1 - p, p)] answers 1
    exactly when the probability is above one half, and 0 on a tie; with the
    probability the sigmoid of one logit, as in the training step, that is
    exactly when the logit is positive. *)
Theorem predicted_class_rule (probs logits : list R) :
  map argmax (class_probs probs)
  = map (fun p => if Rlt_dec (1 / 2) p then 1 else 0) probs /\
  map argmax (class_probs (map sigmoid logits))
  = map (fun x => if Rlt_dec 0 x then 1 else 0) logits.
Proof.
  assert (Hprobs : forall ps,
             map argmax (class_probs ps)
             = map (fun p => if Rlt_dec (1 / 2) p then 1 else 0) ps).
  { intros ps. unfold class_probs. rewrite map_map. apply map_ext.
    intros p. apply argmax_pair. }
  split; [apply Hprobs|].
  rewrite Hprobs, map_map. apply map_ext. intros x.
  destruct (Rlt_dec (1 / 2) (sigmoid x)) as [Hs|Hs], (Rlt_dec 0 x) as [Hx|Hx];
    try reflexivity; exfalso.
  - apply Hx, sigmoid_above_half, Hs.
  - apply Hs, sigmoid_above_half, Hx.
Qed.

(** ** Start-up order *)

(** X10.  [main] resolves the BERT directories before it looks for a
    checkpoint: with a usable batch size, an empty [bert_dir] and one of the
    two explicit directories empty, the run ends with the [ValueError] of
    [resolve_bert_ckpt_and_config_dir] in either mode and whatever the
    environment holds, also when a checkpoint is there to take the place of
    the pretrained weights. *)
Theorem main_needs_bert_dir_before_checkpoint (E : Env) (D : Datasets) (F : Flags) :
  per_core_batch_size F * num_cores F <> 0 ->
  truthy (bert_dir F) = false ->
  truthy (bert_ckpt_dir F) = false \/ truthy (bert_config_dir F) = false ->
  main E D F = Raise (ValueError "bert_dir cannot be empty.").
Proof.
  intros Hbatch Hdir Hmissing. unfold main, py_floordiv, dataset_builders.
  apply Z.eqb_neq in Hbatch. rewrite Hbatch. cbn [mbind result_bind mapM mret result_ret
    fst snd].
  unfold resolve_bert_ckpt_and_config_dir. rewrite Hdir.
  destruct Hmissing as [H|H]; rewrite H; [|rewrite andb_false_r]; reflexivity.
Qed.

(** No BERT directory at all, in a run directory that holds a checkpoint. *)
Lemma main_needs_bert_dir_before_checkpoint_witness :
  main (sample_env 1 "/tmp/toxic_comments") (sample_datasets 1)
    {| bert_dir := None;
       bert_ckpt_dir := None;
       bert_config_dir := None;
       use_gp_layer := true;
       gp_mean_field_factor := default_mean_field_factor;
       per_core_batch_size := 1;
       checkpoint_interval := 3;
       evaluation_interval := 1;
       num_bins := 15;
       fractions := ["0.0"; "0.01"; "0.05"; "0.1"; "0.15"; "0.2"];
       output_dir := "/tmp/toxic_comments";
       train_epochs := 3;
       ece_label_threshold := (7 / 10)%R;
       num_mc_samples := 1;
       loss_type := cross_entropy;
       num_cores := 1;
       prediction_mode := false;
       eval_checkpoint_dir := None |}
  = Raise (ValueError "bert_dir cannot be empty.").
Proof.
  apply main_needs_bert_dir_before_checkpoint.
  - simpl. lia.
  - reflexivity.
  - left. reflexivity.
Defined.

(** ** The two tests for an identity dataset *)

Lemma empty_identity_columns_other (names : list string) (l : string) :
  l ∉ names ->
  forall d : gmap string (list tensor),
    foldl (fun d identity_label_name => <[identity_label_name := []]> d) d names !! l
    = d !! l.
Proof.
  induction names as [|n names IH]; intros Hl d; cbn [foldl]; [reflexivity|].
  apply not_elem_of_cons in Hl as [Hne Hl].
  rewrite (IH Hl). apply lookup_insert_ne. congruence.
Qed.

Lemma predict_iteration_columns (E : Env) (F : Flags) (theta : Params) (name : string)
  (step : Z) (s s' : list batch * predictions) :
  (forall l, is_Some (additional_labels_all_dict s.2 !! l) <->
             has_identity name = true /\ l ∈ _IDENTITY_LABELS) ->
  predict_iteration E F theta name step s = Ok s' ->
  forall l, is_Some (additional_labels_all_dict s'.2 !! l) <->
            has_identity name = true /\ l ∈ _IDENTITY_LABELS.
Proof.
  destruct s as [it0 p0], s' as [it1 p1]. cbn [snd]. intros HP Hstep.
  unfold predict_iteration in Hstep.
  destruct (final_eval_step E F theta it0)
    as [[it2 [[[text logits] labels] additional]]|e].
  - apply bind_ok in Hstep as (d & Hd & Hstep). injection Hstep as <- <-.
    cbn [additional_labels_all_dict]. destruct (has_identity name) eqn:Hid.
    + destruct (append_identity_labels_inv additional _IDENTITY_LABELS
                  identity_labels_nodup _ _ Hd) as [Hin Hout].
      intros l. split.
      * intros Hsome. split; [reflexivity|].
        destruct (decide (l ∈ _IDENTITY_LABELS)) as [Hl|Hl]; [exact Hl|].
        rewrite (Hout l Hl) in Hsome. by apply HP in Hsome as [_ ?].
      * intros [_ Hl]. destruct (Hin l Hl) as (old & v & _ & _ & ->). eauto.
    + injection Hd as <-. exact HP.
  - destruct e; try discriminate Hstep. injection Hstep as <- <-. exact HP.
Qed.

(** X11.  After the prediction loop the collected dict has exactly the
    identity columns as keys on a dataset whose name contains [identity] and
    is empty on any other; so the test [if additional_labels_all_dict] that
    decides whether the columns are concatenated and the test
    ['identity' in dataset_name] that decides whether they are saved always
    agree. *)
Theorem identity_tests_agree (E : Env) (F : Flags) (theta : Params) (name : string)
  (steps : Z) (data it : list batch) (p : predictions) :
  predict_loop E F theta name steps data = Ok (it, p) ->
  (forall l, is_Some (additional_labels_all_dict p !! l) <->
             has_identity name = true /\ l ∈ _IDENTITY_LABELS) /\
  Nat.eqb (size (additional_labels_all_dict p)) 0 = negb (has_identity name).
Proof.
  unfold predict_loop. intros Hrun.
  assert (Hkeys : forall l, is_Some (additional_labels_all_dict p !! l) <->
                            has_identity name = true /\ l ∈ _IDENTITY_LABELS).
  { apply (for_each_invariant
             (fun s : list batch * predictions =>
                forall l, is_Some (additional_labels_all_dict s.2 !! l) <->
                          has_identity name = true /\ l ∈ _IDENTITY_LABELS)
             (range steps) (predict_iteration E F theta name)
             (predict_iteration_columns E F theta name)
             (data, empty_predictions name) (it, p)); [|exact Hrun].
    cbn [snd]. unfold empty_predictions. cbn [additional_labels_all_dict].
    intros l. destruct (has_identity name).
    - destruct (decide (l ∈ _IDENTITY_LABELS)) as [Hl|Hl].
      + rewrite empty_identity_columns by (by left). split; [auto | eauto].
      + rewrite empty_identity_columns_other by exact Hl. rewrite lookup_empty.
        split; [intros [? ?]; discriminate | intros [_ ?]; contradiction].
    - rewrite lookup_empty. split; [intros [? ?]; discriminate | intros [? _]; discriminate]. }
  split; [exact Hkeys|].
  destruct (has_identity name) eqn:Hid; cbn [negb].
  - apply Nat.eqb_neq. intros Hsize. apply map_size_empty_iff in Hsize.
    destruct (proj2 (Hkeys "male")) as [column Hcolumn].
    + split; [reflexivity | by left].
    + rewrite Hsize, lookup_empty in Hcolumn. discriminate.
  - apply Nat.eqb_eq, map_size_empty_iff, map_empty. intros l.
    destruct (additional_labels_all_dict p !! l) eqn:Hl; [|reflexivity].
    destruct (proj1 (Hkeys l)) as [? _]; [eauto | discriminate].
Qed.

(** The pass over the in-domain sample dataset collects no column. *)
Lemma identity_tests_agree_witness :
  exists p,
    predict_loop (sample_env 1 "/run") (sample_flags (-1) 1 true (Some "/run"))
      (sample_params 0 0) "ind" 5 [sample_batch 1] = Ok ([], p) /\
    Nat.eqb (size (additional_labels_all_dict p)) 0 = true.
Proof.
  eexists. split; [apply sample_prediction_pass; lia|].
  refine (proj2 (identity_tests_agree (sample_env 1 "/run")
                   (sample_flags (-1) 1 true (Some "/run")) (sample_params 0 0)
                   "ind" 5 [sample_batch 1] [] _ (sample_prediction_pass 5 _))).
  lia.
Defined.

(** ** Resuming a finished run *)




(** ** The checkpoint of a prediction run *)

(** X13.  In prediction mode start-up looks for a checkpoint under
    [eval_checkpoint_dir] only, whatever [output_dir] holds.  When it finds
    one, every tracked variable takes its value; when it finds none, nothing
    is raised: the run goes on with the pretrained encoder weights and the
    other variables as built. *)
Theorem prediction_checkpoint_source (E : Env) (F : Flags) (bert_ckpt_dir : option string)
  (steps_per_epoch : Z) (theta : Params) (d : string) :
  prediction_mode F = true ->
  eval_checkpoint_dir F = Some d ->
  (forall name,
     latest_checkpoint E d = Some name -> name <> "" ->
     exists initial_epoch,
       restore_or_load E F bert_ckpt_dir steps_per_epoch theta
       = Ok (read_checkpoint E name, initial_epoch)) /\
  (latest_checkpoint E d = None ->
   restore_or_load E F bert_ckpt_dir steps_per_epoch theta
   = Ok ({| encoder := load_bert_weight_from_ckpt E (encoder theta) bert_ckpt_dir;
            head := head theta;
            opt_slots := opt_slots theta;
            iterations := iterations theta |}, 0)).
Proof.
  intros Hmode Hdir. unfold restore_or_load, find_latest_checkpoint.
  rewrite Hmode, Hdir. split.
  - intros name -> Hname. destruct name as [|c name]; [congruence|].
    eexists. reflexivity.
  - intros ->. reflexivity.
Qed.

(** The sample environment has a checkpoint under [/run] only: a prediction
    run pointed at [/nowhere] starts from the pretrained encoder. *)
Lemma prediction_checkpoint_source_witness :
  restore_or_load (sample_env 1 "/run") (sample_flags 0 1 true (Some "/nowhere"))
    (Some "/bert/bert_model.ckpt") 1 (sample_params 0 0)
  = Ok ({| encoder := [1%R]; head := [0%R]; opt_slots := []; iterations := 0 |}, 0).
Proof.
  exact (proj2 (prediction_checkpoint_source (sample_env 1 "/run")
                  (sample_flags 0 1 true (Some "/nowhere"))
                  (Some "/bert/bert_model.ckpt") 1 (sample_params 0 0) "/nowhere"
                  eq_refl eq_refl) eq_refl).
Defined.

(** ** Monte-Carlo samples of one forward pass *)

Lemma mapM_constant_ok {A B : Type} (b : B) (xs : list A) :
  mapM (fun _ => Ok b) xs = Ok (replicate (length xs) b).
Proof.
  induction xs as [|x xs IH]; [reflexivity|].
  cbn [mapM length replicate mbind result_bind]. rewrite IH. reflexivity.
Qed.

Lemma mapM_constant_raise {A B : Type} (e : exn) (xs : list A) :
  xs <> [] -> mapM (fun _ => @Raise B e) xs = Raise e.
Proof. destruct xs as [|x xs]; [congruence | reflexivity]. Qed.

Lemma map_replicate {A B : Type} (f : A -> B) (n : nat) (x : A) :
  map f (replicate n x) = replicate n (f x).
Proof. induction n as [|n IH]; simpl; [reflexivity | by rewrite IH]. Qed.

Lemma stack_replicate (n : nat) (r : list R) :
  (0 < n)%nat -> stack (replicate n r) = Ok (replicate n r).
Proof.
  destruct n as [|n]; [lia|]. intros _. cbn [replicate stack].
  assert (Hall : forallb (fun r' => Nat.eqb (length r') (length r)) (replicate n r) = true).
  { induction n as [|n IH]; simpl; [reflexivity|]. by rewrite Nat.eqb_refl. }
  by rewrite Hall.
Qed.

Lemma foldl_zip_with_replicate (r : list R) (n : nat) :
  forall k : R,
    foldl (zip_with Rplus) (map (fun x => (k * x)%R) r) (replicate n r)
    = map (fun x => ((k + INR n) * x)%R) r.
Proof.
  induction n as [|n IH]; intros k.
  - cbn [replicate foldl]. apply map_ext. intros x. simpl. lra.
  - cbn [replicate foldl].
    assert (Hstep : zip_with Rplus (map (fun x => (k * x)%R) r) r
                    = map (fun x => ((k + 1) * x)%R) r).
    { clear IH. induction r as [|x r IHr]; simpl; [reflexivity|].
      rewrite IHr. f_equal. lra. }
    rewrite Hstep, IH. apply map_ext. intros x. rewrite S_INR. lra.
Qed.

Lemma reduce_mean_axis0_replicate (n : nat) (r : list R) :
  (0 < n)%nat -> reduce_mean_axis0 (replicate n r) = r.
Proof.
  destruct n as [|n]; [lia|]. intros _.
  unfold reduce_mean_axis0, reduce_sum_axis0. rewrite length_replicate.
  cbn [replicate].
  assert (Hone : r = map (fun x => (1 * x)%R) r).
  { rewrite <- (map_id r) at 1. apply map_ext. intros x. lra. }
  rewrite Hone at 1. rewrite foldl_zip_with_replicate, map_map.
  rewrite <- (map_id r) at 2. apply map_ext. intros x.
  assert (Hpos : (0 < INR (S n))%R) by (apply lt_0_INR; lia).
  rewrite S_INR in *. field. lra.
Qed.

Lemma mc_nll_replicate (samples : Z) (labels logits : list R) :
  1 <= samples ->
  mc_negative_log_likelihood samples labels (replicate (Z.to_nat samples) logits)
  = (ce ← sigmoid_cross_entropy_with_logits labels logits; Ok (reduce_mean ce)).
Proof.
  intros Hs. destruct (decide (length logits = length labels)) as [Hlen|Hlen].
  - rewrite mc_nll_stacked;
      [| exact Hs | apply length_replicate | by apply Forall_replicate].
    rewrite sigmoid_cross_entropy_same_shape by exact Hlen.
    cbn [mbind result_bind]. f_equal. unfold batch_nll. f_equal.
    rewrite <- (list_as_map_nth (zip_with sigmoid_cross_entropy labels logits)).
    rewrite length_zip_with, Hlen, Nat.min_id.
    apply map_ext_in. intros i Hi. apply in_seq in Hi.
    unfold example_nll. rewrite map_replicate, reduce_sum_replicate.
    rewrite nth_zip_with by lia.
    assert (Hn : INR (Z.to_nat samples) = IZR samples)
      by (rewrite INR_IZR_INZ, Z2Nat.id by lia; reflexivity).
    rewrite Hn.
    rewrite ln_mult; [| apply IZR_lt; lia | apply exp_pos].
    rewrite ln_exp. lra.
  - unfold mc_negative_log_likelihood, cross_entropy_rows.
    rewrite !length_replicate, Nat.eqb_refl.
    destruct (Z.to_nat samples) as [|n] eqn:Hn; [lia|].
    cbn [replicate zip zip_with mapM fst snd].
    unfold sigmoid_cross_entropy_with_logits, same_shape2.
    assert (Hne : Nat.eqb (length labels) (length logits) = false)
      by (apply Nat.eqb_neq; congruence).
    rewrite Hne. reflexivity.
Qed.

(** X14.  The forward pass of the evaluation step is a function of the
    variables and the features, so its Monte-Carlo samples are copies of one
    another: over the reals, with any two sample counts of at least one and
    the other flags the step reads equal, the step feeds the metrics the
    same values and fails in the same way. *)
Theorem mc_sample_count_is_immaterial (E : Env) (F F' : Flags) (theta : Params)
  (dataset_name : string) (inputs : batch) (ms : gmap string metric) :
  1 <= num_mc_samples F ->
  1 <= num_mc_samples F' ->
  gp_mean_field_factor F = gp_mean_field_factor F' ->
  per_core_batch_size F * num_cores F = per_core_batch_size F' * num_cores F' ->
  ece_label_threshold F = ece_label_threshold F' ->
  fractions F = fractions F' ->
  test_step_fn E F theta dataset_name inputs ms
  = test_step_fn E F' theta dataset_name inputs ms.
Proof.
  intros Hs Hs' Hfactor Hbatch Hthreshold Hfractions. unfold test_step_fn.
  destruct (create_feature_and_label inputs) as [[[features labels] additional]|e];
    [|reflexivity].
  cbn [mbind result_bind].
  assert (Hforward : eval_forward E F theta features = eval_forward E F' theta features).
  { unfold eval_forward, logits_and_covmat, test_batch_size.
    rewrite Hfactor, Hbatch. reflexivity. }
  rewrite Hforward.
  destruct (eval_forward E F' theta features) as [[logits stddev]|e].
  - rewrite !mapM_constant_ok, !range_length. cbn [mbind result_bind].
    rewrite !fmap_replicate. cbn [fst snd].
    rewrite !stack_replicate by lia. cbn [mbind result_bind]. cbv zeta.
    rewrite !map_replicate. rewrite !reduce_mean_axis0_replicate by lia.
    destruct (float_values labels) as [labels_f|e]; [|reflexivity].
    cbn [mbind result_bind].
    rewrite !mc_nll_replicate by assumption.
    rewrite Hthreshold, Hfractions. reflexivity.
  - rewrite !mapM_constant_raise; [reflexivity | |].
    + intros Hnil. apply (f_equal length) in Hnil. rewrite range_length in Hnil.
      simpl in Hnil. lia.
    + intros Hnil. apply (f_equal length) in Hnil. rewrite range_length in Hnil.
      simpl in Hnil. lia.
Qed.

(** One sample against five on the sample batch. *)
Lemma mc_sample_count_is_immaterial_witness :
  let F := sample_flags (-1) 1 false None in
  let F' := {| bert_dir := Some "/bert";
               bert_ckpt_dir := None;
               bert_config_dir := None;
               use_gp_layer := true;
               gp_mean_field_factor := (-1)%R;
               per_core_batch_size := 1;
               checkpoint_interval := 3;
               evaluation_interval := 1;
               num_bins := 15;
               fractions := ["0.0"; "0.01"; "0.05"; "0.1"; "0.15"; "0.2"];
               output_dir := "/tmp/toxic_comments";
               train_epochs := 3;
               ece_label_threshold := (7 / 10)%R;
               num_mc_samples := 5;
               loss_type := cross_entropy;
               num_cores := 1;
               prediction_mode := false;
               eval_checkpoint_dir := None |} in
  test_step_fn (sample_env 1 "/run") F (sample_params 0 0) "ind" (sample_batch 1)
    (sample_metrics F)
  = test_step_fn (sample_env 1 "/run") F' (sample_params 0 0) "ind" (sample_batch 1)
      (sample_metrics F).
Proof.
  intros F F'. apply mc_sample_count_is_immaterial.
  - simpl. lia.
  - simpl. lia.
  - reflexivity.
  - reflexivity.
  - reflexivity.
  - reflexivity.
Defined.

(** ** The training iterator across epochs *)

Lemma train_steps_consume (E : Env) (F : Flags) (steps : list Z) :
  forall s s' : list batch * train_state,
    for_each steps (fun _ s => train_step E F s.1 s.2) s = Ok s' ->
    (length steps <= length s.1)%nat /\ s'.1 = drop (length steps) s.1.
Proof.
  induction steps as [|step steps IH]; intros s s' Hrun.
  - cbn [for_each] in Hrun. injection Hrun as <-. cbn [length drop]. split; [lia | reflexivity].
  - cbn [for_each] in Hrun. apply bind_ok in Hrun as (s1 & H1 & Hrun).
    destruct (IH _ _ Hrun) as [Hlen ->]. unfold train_step in H1.
    destruct s as [it st]. cbn [fst snd] in *.
    destruct it as [|b rest]; [discriminate|]. cbn [next mbind result_bind] in H1.
    apply bind_ok in H1 as (st1 & _ & H1). injection H1 as <-.
    cbn [fst length drop] in *. split; [lia | reflexivity].
Qed.

Lemma epoch_body_consumes (E : Env) (F : Flags) (test_sets : list test_set)
  (steps_per_epoch epoch : Z) (rs rs' : run_state) :
  epoch_body E F test_sets steps_per_epoch epoch rs = Ok rs' ->
  (Z.to_nat steps_per_epoch <= length (rs_train_iterator rs))%nat /\
  rs_train_iterator rs' = drop (Z.to_nat steps_per_epoch) (rs_train_iterator rs).
Proof.
  unfold epoch_body. intros Hrun.
  apply bind_ok in Hrun as ([train_iterator st] & Htrain & Hrun). cbv beta iota in Hrun.
  apply bind_ok in Hrun as (r & _ & Hrun).
  apply bind_ok in Hrun as ([ms summaries] & _ & Hrun). cbv beta iota zeta in Hrun.
  injection Hrun as <-. cbn [rs_train_iterator].
  unfold train_epoch in Htrain. apply train_steps_consume in Htrain.
  rewrite range_length in Htrain. exact Htrain.
Qed.

Lemma sample_last_epoch :
  exists rs',
    train_loop (sample_env 1 "/run") (sample_flags (-1) 4 false None) [] 1 2
      {| rs_train := {| params := sample_params 0 2;
                        metrics := sample_metrics (sample_flags (-1) 4 false None) |};
         rs_train_iterator := [sample_batch 1];
         rs_summaries := [];
         rs_checkpoints := [] |}
    = Ok rs'.
Proof.
  assert (Htrain_names : forall name,
             name ∈ train_step_names ->
             is_Some (sample_metrics (sample_flags (-1) 4 false None) !! name)).
  { intros name Hin. unfold train_step_names in Hin.
    repeat (apply elem_of_cons in Hin as [->|Hin]; [vm_compute; eauto|]).
    by apply elem_of_nil in Hin. }
  destruct (sample_train_epoch_from (sample_flags (-1) 4 false None)
              (sample_metrics (sample_flags (-1) 4 false None)) 1 (sample_params 0 2)
              eq_refl Htrain_names) as [st1 Htrain].
  unfold train_loop. change (range2 2 (train_epochs (sample_flags (-1) 4 false None)))
    with [2]. cbn [for_each].
  unfold epoch_body. cbn [rs_train_iterator rs_train]. rewrite Htrain.
  cbn [mbind result_bind]. eexists. reflexivity.
Qed.

(** X15.  The training iterator is made once, before the epoch loop, and
    every epoch goes on where the previous one stopped: a loop that completes
    has drawn [steps_per_epoch] batches per epoch run, in order, from the one
    iterator, which therefore held at least that many. *)
Theorem train_iterator_runs_through_epochs (E : Env) (F : Flags)
  (test_sets : list test_set) (steps_per_epoch initial_epoch : Z) (rs rs' : run_state) :
  0 <= steps_per_epoch ->
  initial_epoch <= train_epochs F ->
  train_loop E F test_sets steps_per_epoch initial_epoch rs = Ok rs' ->
  let drawn := Z.to_nat ((train_epochs F - initial_epoch) * steps_per_epoch) in
  (drawn <= length (rs_train_iterator rs))%nat /\
  rs_train_iterator rs' = drop drawn (rs_train_iterator rs).
Proof.
  intros Hsteps Hepochs Hrun drawn. unfold train_loop in Hrun.
  apply (for_each_range2
           (fun e t =>
              (Z.to_nat ((e - initial_epoch) * steps_per_epoch)
               <= length (rs_train_iterator rs))%nat /\
              rs_train_iterator t
              = drop (Z.to_nat ((e - initial_epoch) * steps_per_epoch))
                  (rs_train_iterator rs))
           _ (train_epochs F) (Z.to_nat (train_epochs F - initial_epoch))
           initial_epoch rs rs' eq_refl) in Hrun.
  - replace (Z.max initial_epoch (train_epochs F)) with (train_epochs F) in Hrun by lia.
    exact Hrun.
  - intros e t t' He [Hlen Hit] Hbody.
    apply epoch_body_consumes in Hbody as [Hlen' Hit'].
    rewrite Hit in Hlen', Hit'. rewrite length_drop in Hlen'. rewrite drop_drop in Hit'.
    replace (Z.to_nat ((e + 1 - initial_epoch) * steps_per_epoch))
      with (Z.to_nat ((e - initial_epoch) * steps_per_epoch) + Z.to_nat steps_per_epoch)%nat
      by nia.
    split; [lia | exact Hit'].
  - replace ((initial_epoch - initial_epoch) * steps_per_epoch) with 0 by lia.
    cbn [Z.to_nat drop]. split; [lia | reflexivity].
Qed.

(** The last epoch of the sample run takes the one batch that is left. *)
Lemma train_iterator_runs_through_epochs_witness :
  exists rs',
    train_loop (sample_env 1 "/run") (sample_flags (-1) 4 false None) [] 1 2
      {| rs_train := {| params := sample_params 0 2;
                        metrics := sample_metrics (sample_flags (-1) 4 false None) |};
         rs_train_iterator := [sample_batch 1];
         rs_summaries := [];
         rs_checkpoints := [] |}
    = Ok rs' /\
    rs_train_iterator rs' = [].
Proof.
  destruct sample_last_epoch as [rs' Hrun]. exists rs'. split; [exact Hrun|].
  refine (proj2 (train_iterator_runs_through_epochs (sample_env 1 "/run")
                   (sample_flags (-1) 4 false None) [] 1 2 _ rs' _ _ Hrun)).
  - lia.
  - simpl. lia.
Defined.
